(** * Outline extraction from PDF typography: [process_pdfs.py]

    A shallow embedding of the four heuristics of [process_pdfs.py]
    ([get_style_hierarchy], [analyze_first_page], [is_valid_heading],
    [process_pdf_document]) and of the batch driver [process_all_pdfs],
    followed by the properties of the outline they compute.

    Conventions of the embedding.
    - A Python [str] is the list of its code points.  White space is what
      [str.isspace] says.  The other character data of the interpreter (the
      decimal digits of [\d], [str.lower], the case folding of
      [re.IGNORECASE]) is fixed on ASCII and, beyond ASCII, taken from the
      tables of [UnicodeTables], which every definition that needs them
      receives: the theorems hold whatever these tables are.
    - The text-run extractor (PyMuPDF) is external: a document is the value
      that [page.get_text("dict")] and [page.get_text("blocks")] return for
      each page.  A span size is a finite float, that is a rational.  Opening
      a file either raises, or returns a document whose pages can be read, or
      returns one whose reading raises.
    - A [Counter] and a [dict] iterate in insertion order, so both are
      association lists with distinct keys; the ignore [set] is only tested
      for membership and is a [gset]; the output directory is a [gmap] from
      the path of a file to the value that [json.dump] receives.
    - What a run prints, and the creation of the output directory, are left
      out. *)

From Stdlib Require Import ZArith QArith Ascii String DecimalString Permutation Sorted Lia.
From stdpp Require Import base option list strings gmap sorting.

Local Open Scope string_scope.
Local Open Scope list_scope.

(** ** Characters and the tables of the interpreter *)

Definition char := N.
Definition str := list char.

(** The code points of a literal. *)
Definition ch (a : ascii) : char := N_of_ascii a.
Definition u (s : string) : str := map ch (list_ascii_of_string s).

(** The character data that the source takes from the interpreter and that
    is not fixed here: each table is consulted beyond ASCII only. *)
Class UnicodeTables := {
  (** [\d] and [str.isdecimal] on one character *)
  uni_decimal : char -> bool;
  (** [str.lower] on a string that has a character beyond ASCII *)
  uni_lower : str -> str;
  (** whether a literal of a pattern has a case, for [re.IGNORECASE] *)
  uni_cased : char -> bool;
  (** whether a character of the subject matches a literal of the pattern
      under [re.IGNORECASE] *)
  uni_ignorecase : char -> char -> bool
}.

(** Tables that know nothing beyond ASCII, to run the definitions on sample
    inputs. *)
Global Instance basic_tables : UnicodeTables := {|
  uni_decimal := fun _ => false;
  uni_lower := fun s => s;
  uni_cased := fun _ => false;
  uni_ignorecase := N.eqb
|}.

(** ** Python strings *)

Module PyStr.

Definition in_range (lo hi n : N) : bool := ((lo <=? n) && (n <=? hi))%N.

Definition is_ascii (c : char) : bool := (c <? 128)%N.

Definition space : char := 32%N.
Definition newline : char := 10%N.
Definition dot : char := 46%N.

(** [str.isspace] on one character: TAB..CR, FS..US, SPACE, NEL, NBSP,
    U+1680, U+2000..U+200A, U+2028, U+2029, U+202F, U+205F, U+3000. *)
Definition isspace (c : char) : bool :=
  in_range 9 13 c || in_range 28 32 c || (c =? 133)%N || (c =? 160)%N
  || (c =? 5760)%N || in_range 8192 8202 c || in_range 8232 8233 c
  || (c =? 8239)%N || (c =? 8287)%N || (c =? 12288)%N.

(** [str.lower] on an ASCII character. *)
Definition ascii_lower (c : char) : char :=
  if in_range 65 90 c then (c + 32)%N else c.

Definition is_ascii_letter (c : char) : bool :=
  in_range 65 90 c || in_range 97 122 c.

Section WithTables.
Context {T : UnicodeTables}.

(** The class [\d]: 0..9 on ASCII, the table beyond. *)
Definition is_decimal (c : char) : bool :=
  if is_ascii c then in_range 48 57 c else uni_decimal c.

(** [s.lower()]. *)
Definition lower (s : str) : str :=
  if forallb is_ascii s then map ascii_lower s else uni_lower s.

End WithTables.

(** [s.lstrip()], [s.rstrip()] and [s.strip()] without argument. *)
Fixpoint lstrip (s : str) : str :=
  match s with
  | [] => []
  | c :: s' => if isspace c then lstrip s' else s
  end.

Fixpoint rstrip (s : str) : str :=
  match s with
  | [] => []
  | c :: s' =>
      match rstrip s' with
      | [] => if isspace c then [] else [c]
      | r => c :: r
      end
  end.

Definition strip (s : str) : str := rstrip (lstrip s).

(** [not s]: the empty string is the only falsy string. *)
Definition is_empty (s : str) : bool :=
  match s with [] => true | _ => false end.

(** [s == t]. *)
Definition eqb (s t : str) : bool := bool_decide (s = t).

(** [s.startswith(prefix)] and [s.endswith(suffix)]. *)
Fixpoint startswith (s prefix : str) : bool :=
  match prefix, s with
  | [], _ => true
  | c :: prefix', a :: s' => (a =? c)%N && startswith s' prefix'
  | _ :: _, [] => false
  end.

Fixpoint endswith (s suffix : str) : bool :=
  eqb s suffix
  || match s with
     | [] => false
     | _ :: s' => endswith s' suffix
     end.

(** [s.split()] without argument: the maximal runs of non-space characters.
    [cur] is the word being read. *)
Fixpoint split_from (cur : str) (s : str) : list str :=
  match s with
  | [] => if is_empty cur then [] else [cur]
  | c :: s' =>
      if isspace c
      then (if is_empty cur then split_from [] s' else cur :: split_from [] s')
      else split_from (cur ++ [c]) s'
  end.

Definition split (s : str) : list str := split_from [] s.

(** [s.split(sep)[0]]: the part of [s] before the first [sep]. *)
Fixpoint split_first (sep : char) (s : str) : str :=
  match s with
  | [] => []
  | c :: s' => if (c =? sep)%N then [] else c :: split_first sep s'
  end.

(** [sep.join(l)]. *)
Fixpoint join (sep : str) (l : list str) : str :=
  match l with
  | [] => []
  | [x] => x
  | x :: l' => x ++ sep ++ join sep l'
  end.

(** [sub in s]: substring test. *)
Fixpoint contains (sub s : str) : bool :=
  startswith s sub
  || match s with
     | [] => false
     | _ :: s' => contains sub s'
     end.

(** [x in l] for a list of strings. *)
Definition in_list (x : str) (l : list str) : bool := bool_decide (x ∈ l).

(** [str(n)] for a natural number, as an f-string prints it. *)
Definition of_nat (n : nat) : str :=
  u (NilEmpty.string_of_uint (Nat.to_uint n)).

End PyStr.

(** ** The fragment of [re] that [is_valid_heading] uses *)

Module Re.

(** One item of a character set [[...]]. *)
Inductive item :=
| IDigit                 (* \d *)
| IChar (c : char).      (* a literal, also an escaped one *)

Inductive regex :=
| Void
| Eps
| Lit (c : char)
| Set_ (items : list item)
| Cat (r1 r2 : regex)
| Alt (r1 r2 : regex)
| Star (r : regex).

(** [r+] *)
Definition Plus (r : regex) : regex := Cat r (Star r).

Section WithTables.
Context {T : UnicodeTables}.

(** Whether the literal [c] of a pattern has a case: the letters on ASCII,
    the table beyond. *)
Definition is_cased (c : char) : bool :=
  if PyStr.is_ascii c then PyStr.is_ascii_letter c else uni_cased c.

(** Whether the character [a] of the subject matches the cased literal [c]
    when case is ignored: between ASCII characters, when their lower cases are
    equal; the table otherwise. *)
Definition same_ignoring_case (c a : char) : bool :=
  if PyStr.is_ascii c && PyStr.is_ascii a
  then (PyStr.ascii_lower a =? PyStr.ascii_lower c)%N
  else uni_ignorecase c a.

(** Does the character [a] of the subject match the literal [c]?  With
    [re.IGNORECASE] a literal without case is still compared as it is. *)
Definition lit_matches (ignorecase : bool) (c a : char) : bool :=
  if ignorecase && is_cased c then same_ignoring_case c a else (a =? c)%N.

Definition item_has (ignorecase : bool) (a : char) (i : item) : bool :=
  match i with
  | IDigit => PyStr.is_decimal a
  | IChar c => lit_matches ignorecase c a
  end.

Definition set_matches (ignorecase : bool) (items : list item) (a : char) : bool :=
  existsb (item_has ignorecase a) items.

Fixpoint nullable (r : regex) : bool :=
  match r with
  | Void | Lit _ | Set_ _ => false
  | Eps | Star _ => true
  | Cat r1 r2 => nullable r1 && nullable r2
  | Alt r1 r2 => nullable r1 || nullable r2
  end.

(** The residual of [r] after reading [a]. *)
Fixpoint deriv (ignorecase : bool) (a : char) (r : regex) : regex :=
  match r with
  | Void | Eps => Void
  | Lit c => if lit_matches ignorecase c a then Eps else Void
  | Set_ items => if set_matches ignorecase items a then Eps else Void
  | Cat r1 r2 =>
      let left := Cat (deriv ignorecase a r1) r2 in
      if nullable r1 then Alt left (deriv ignorecase a r2) else left
  | Alt r1 r2 => Alt (deriv ignorecase a r1) (deriv ignorecase a r2)
  | Star r1 => Cat (deriv ignorecase a r1) (Star r1)
  end.

(** [re.fullmatch(r, s, flags) is not None]. *)
Fixpoint fullmatch (ignorecase : bool) (r : regex) (s : str) : bool :=
  match s with
  | [] => nullable r
  | a :: s' => fullmatch ignorecase (deriv ignorecase a r) s'
  end.

End WithTables.

(** The pattern [r'[\d\.]+|S\.No']. *)
Definition marker_pattern : regex :=
  Alt (Plus (Set_ [IDigit; IChar PyStr.dot]))
      (Cat (Lit (ch "S")) (Cat (Lit PyStr.dot) (Cat (Lit (ch "N")) (Lit (ch "o"))))).

End Re.

(** ** The heading validator *)

Definition form_labels : list str :=
  map u ["name"; "age"; "relationship"; "date"; "signature of government servant."].

Section Validator.
Context {T : UnicodeTables}.

Definition is_valid_heading (text : str) : bool :=
  let text := PyStr.strip text in
  (* RULE 1: must not be empty *)
  if PyStr.is_empty text then false
  (* RULE 2: must not be a number or a list marker *)
  else if Re.fullmatch true Re.marker_pattern text then false
  (* RULE 3: must not be a sentence ending with a period *)
  else if PyStr.endswith text [PyStr.dot] && (4 <? length (PyStr.split text))%nat
  then false
  (* RULE 4: must not be a form field label *)
  else if PyStr.in_list (PyStr.lower text) form_labels then false
  else true.

End Validator.

(** ** The extractor's output *)

(** A span of [page.get_text("dict")]: its text, its font size and its font
    name. *)
Record span := Span {
  span_text : str;
  span_size : Q;
  span_font : str
}.

(** A line is a dictionary with its list of spans. *)
Record line := Line { spans : list span }.

(** A block has the key ["lines"] ([Some]) or not ([None], an image block). *)
Record block := Block { lines : option (list line) }.

(** A page: the blocks of [get_text("dict")] and, for each block of
    [get_text("blocks")], its text (the field of index 4). *)
Record page := Page {
  blocks : list block;
  text_blocks : list str
}.

Definition document := list page.

(** [round(x)] of a finite float: to the nearest integer, ties to even. *)
Definition py_round (x : Q) : Z :=
  let d := Z.pos (Qden x) in
  let f := (Qnum x / d)%Z in
  match (2 * (Qnum x mod d) ?= d)%Z with
  | Lt => f
  | Gt => (f + 1)%Z
  | Eq => if Z.even f then f else (f + 1)%Z
  end.

(** A style is a rounded size and a bold flag. *)
Definition style := (Z * bool)%type.

Definition style_of `{UnicodeTables} (sp : span) : style :=
  (py_round (span_size sp), PyStr.contains (u "bold") (PyStr.lower (span_font sp))).

(** ** Dictionaries in insertion order *)

Module Dict.

Section Dict.
Context {V : Type}.

Fixpoint get (k : style) (d : list (style * V)) : option V :=
  match d with
  | [] => None
  | (k', v) :: d' => if decide (k = k') then Some v else get k d'
  end.

Definition mem (k : style) (d : list (style * V)) : bool :=
  match get k d with Some _ => true | None => false end.

(** [d[k] = v]: a known key keeps its place, a new key goes last. *)
Fixpoint set (k : style) (v : V) (d : list (style * V)) : list (style * V) :=
  match d with
  | [] => [(k, v)]
  | (k', v') :: d' =>
      if decide (k = k') then (k', v) :: d' else (k', v') :: set k v d'
  end.

Definition keys (d : list (style * V)) : list style := map fst d.

End Dict.

(** [c[k] += 1] on a [Counter]: a missing key counts 0. *)
Definition incr (k : style) (c : list (style * nat)) : list (style * nat) :=
  set k (S (default 0%nat (get k c))) c.

(** [c.most_common(1)]: [max] over the items by count, which keeps the first
    of the items with the largest count. *)
Definition most_common1 (c : list (style * nat)) : option (style * nat) :=
  match c with
  | [] => None
  | kv :: c' =>
      Some (foldl (fun best kv' => if (snd best <? snd kv')%nat then kv' else best)
                  kv c')
  end.

End Dict.

(** ** The style hierarchy learner *)

Section Learner.
Context {T : UnicodeTables}.

Definition count_line (c : list (style * nat)) (l : line) : list (style * nat) :=
  match spans l with
  | [] => c
  | sp :: _ => Dict.incr (style_of sp) c
  end.

Definition count_block (c : list (style * nat)) (b : block) : list (style * nat) :=
  match lines b with
  | None => c
  | Some ls => foldl count_line c ls
  end.

Definition count_page (c : list (style * nat)) (p : page) : list (style * nat) :=
  foldl count_block c (blocks p).

(** The loop over [range(start_page, len(doc))]. *)
Definition count_styles (doc : document) (start_page : nat) : list (style * nat) :=
  foldl count_page [] (drop start_page doc).

End Learner.

(** The condition of the comprehension that selects the heading styles. *)
Definition is_heading_style (body_style s : style) : bool :=
  (fst body_style <? fst s)%Z
  || ((fst s =? fst body_style)%Z && snd s && negb (bool_decide (s = body_style))).

(** [sorted(l, key=lambda x: x[0], reverse=True)]: a stable sort by
    descending size, here by insertion from the right. *)
Fixpoint insert_desc (x : style) (l : list style) : list style :=
  match l with
  | [] => [x]
  | y :: l' => if (fst x <? fst y)%Z then y :: insert_desc x l' else x :: l
  end.

Definition sorted_desc (l : list style) : list style := foldr insert_desc [] l.

(** The order of the result: no style is followed by a larger one. *)
Definition size_ge (a b : style) : Prop := (fst b <= fst a)%Z.

(** [enumerate(l)]. *)
Definition enumerate {A} (l : list A) : list (nat * A) := imap pair l.

(** [f"H{i+1}"]. *)
Definition level_name (i : nat) : str := u "H" ++ PyStr.of_nat (i + 1).

(** The dictionary comprehension over [enumerate(heading_styles[:3])]. *)
Definition level_map (heading_styles : list style) : list (style * str) :=
  foldl (fun d '(i, s) => Dict.set s (level_name i) d) []
        (enumerate (take 3 heading_styles)).

(** The list comprehension [[s for s in style_counts if ...]]. *)
Definition candidate_styles (style_counts : list (style * nat)) (body_style : style)
  : list style :=
  filter (fun s => is_heading_style body_style s = true) (Dict.keys style_counts).

Definition heading_styles_of (style_counts : list (style * nat)) (body_style : style)
  : list style :=
  sorted_desc (candidate_styles style_counts body_style).

(** The part of [get_style_hierarchy] after the counting loop. *)
Definition hierarchy_of_counts (style_counts : list (style * nat))
  : list (style * str) * option style :=
  match Dict.most_common1 style_counts with
  | None => ([], None)
  | Some (body_style, _) =>
      (level_map (heading_styles_of style_counts body_style), Some body_style)
  end.

Definition get_style_hierarchy `{UnicodeTables} (doc : document) (start_page : nat)
  : list (style * str) * option style :=
  hierarchy_of_counts (count_styles doc start_page).

(** ** The title and ignore-set analyzer *)

(** The guard ["lines" in block and block["lines"] and
    block["lines"][0]["spans"]]: the spans of the first line of the block,
    when there are some, with the first of them. *)
Definition first_line_spans (b : block) : option (span * list span) :=
  match lines b with
  | Some (l :: _) =>
      match spans l with
      | [] => None
      | sp :: _ => Some (sp, spans l)
      end
  | _ => None
  end.

(** [" ".join(s["text"] for s in spans).strip()]. *)
Definition line_text_of (sps : list span) : str :=
  PyStr.strip (PyStr.join [PyStr.space] (map span_text sps)).

Definition max_size_step (max_font_size : Z) (b : block) : Z :=
  match first_line_spans b with
  | Some (sp, _) => Z.max max_font_size (py_round (span_size sp))
  | None => max_font_size
  end.

Definition title_step (max_font_size : Z) (acc : list str * gset str)
    (b : block) : list str * gset str :=
  match first_line_spans b with
  | Some (sp, sps) =>
      let line_text := line_text_of sps in
      if (py_round (span_size sp) =? max_font_size)%Z
      then (fst acc ++ [line_text], snd acc)
      else (fst acc, {[line_text]} ∪ snd acc)
  | None => acc
  end.

Definition title_not_found : str := u "Title not found".

Definition analyze_first_page (doc : document) : str * gset str :=
  let title := title_not_found in
  match doc with
  | [] => (title, ∅)
  | first_page :: _ =>
      match blocks first_page with
      | [] => (title, ∅)
      | bs =>
          let max_font_size := foldl max_size_step 0%Z bs in
          if (max_font_size =? 0)%Z then
            match text_blocks first_page with
            | t :: _ => (PyStr.split_first PyStr.newline (PyStr.strip t), ∅)
            | [] => (title, ∅)
            end
          else
            let '(title_lines, texts_to_ignore) :=
              foldl (title_step max_font_size) ([], ∅) bs in
            (match title_lines with
             | [] => title
             | _ => PyStr.join [PyStr.space] title_lines
             end, texts_to_ignore)
      end
  end.

(** ** The outline assembler *)

Record outline_entry := Entry {
  level : str;
  text : str;
  page_no : nat
}.

Record result := Result {
  title : str;
  outline : list outline_entry
}.

Global Instance outline_entry_eq_dec : EqDecision outline_entry.
Proof. solve_decision. Defined.

Global Instance result_eq_dec : EqDecision result.
Proof. solve_decision. Defined.

Section Assembler.
Context {T : UnicodeTables}.

(** The body of the loop over the blocks of the page of index [page_num]:
    one block either leaves the outline as it is or appends one entry. *)
Definition outline_block (doc_title : str) (texts_to_ignore : gset str)
    (style_to_level : list (style * str)) (page_num : nat)
    (acc : list outline_entry) (b : block) : list outline_entry :=
  match first_line_spans b with
  | None => acc
  | Some (sp, sps) =>
      let line_text := line_text_of sps in
      if PyStr.is_empty line_text
         || PyStr.eqb line_text doc_title
         || bool_decide (line_text ∈ texts_to_ignore)
      then acc
      else
        let current_style := style_of sp in
        if Dict.mem current_style style_to_level && is_valid_heading line_text
        then
          match Dict.get current_style style_to_level with
          | Some lvl =>
              if negb (PyStr.is_empty lvl)
                 && PyStr.in_list lvl [u "H1"; u "H2"; u "H3"]
              then acc ++ [Entry lvl line_text (page_num + 1)]
              else acc
          | None => acc
          end
        else acc
  end.

Definition outline_page (doc_title : str) (texts_to_ignore : gset str)
    (style_to_level : list (style * str))
    (acc : list outline_entry) (ip : nat * page) : list outline_entry :=
  foldl (outline_block doc_title texts_to_ignore style_to_level (fst ip))
        acc (blocks (snd ip)).

(** Pass 3: the loop over [enumerate(doc)]. *)
Definition assemble_outline (doc : document) (doc_title : str)
    (texts_to_ignore : gset str) (style_to_level : list (style * str))
  : list outline_entry :=
  foldl (outline_page doc_title texts_to_ignore style_to_level) [] (enumerate doc).

(** The three passes on a document whose pages can be read. *)
Definition process_document (doc : document) : result :=
  let '(doc_title, texts_to_ignore) := analyze_first_page doc in
  let start_page_for_styles := if (1 <? length doc)%nat then 1%nat else 0%nat in
  let '(style_to_level, _) := get_style_hierarchy doc start_page_for_styles in
  match style_to_level with
  | [] => Result doc_title []
  | _ => Result doc_title
           (assemble_outline doc doc_title texts_to_ignore style_to_level)
  end.

End Assembler.

(** ** Paths ([posixpath]) *)

Module Path.

Definition sep : char := ch "/".
Definition extsep : char := ch ".".

(** [os.path.basename(p)]: what follows the last separator. *)
Fixpoint basename_from (cur p : str) : str :=
  match p with
  | [] => cur
  | c :: p' =>
      if (c =? sep)%N then basename_from [] p'
      else basename_from (cur ++ [c]) p'
  end.

Definition basename (p : str) : str := basename_from [] p.

(** The names that [os.listdir] returns have no separator. *)
Fixpoint no_sep (f : str) : bool :=
  match f with
  | [] => true
  | c :: f' => negb (c =? sep)%N && no_sep f'
  end.

(** [os.path.join(a, b)]. *)
Definition join (a b : str) : str :=
  if PyStr.startswith b [sep] then b
  else if PyStr.is_empty a || PyStr.endswith a [sep] then a ++ b
  else a ++ [sep] ++ b.

(** [p.rfind(c)], with -1 when [c] does not occur. *)
Fixpoint rfind_from (i last : Z) (c : char) (p : str) : Z :=
  match p with
  | [] => last
  | a :: p' => rfind_from (i + 1) (if (a =? c)%N then i else last) c p'
  end.

Definition rfind (c : char) (p : str) : Z := rfind_from 0 (-1) c p.

Fixpoint all_extsep (s : str) : bool :=
  match s with
  | [] => true
  | a :: s' => (a =? extsep)%N && all_extsep s'
  end.

(** [p[i:j]] for indices within the string. *)
Definition slice (i j : Z) (p : str) : str :=
  take (Z.to_nat (j - i)) (drop (Z.to_nat i) p).

(** [os.path.splitext(p)[0]]: [p] without its extension; the dots that lead
    the last component do not start an extension. *)
Definition splitext_root (p : str) : str :=
  let sepIndex := rfind sep p in
  let dotIndex := rfind extsep p in
  if (sepIndex <? dotIndex)%Z
     && negb (all_extsep (slice (sepIndex + 1) dotIndex p))
  then slice 0 dotIndex p
  else p.

End Path.

(** ** One document, and the batch *)

(** What [fitz.open] and the reading of the pages can do with a path:
    [fitz.open] raises; or it returns a document and one of the reads that
    follow ([len(doc)], [doc[0]], [get_text]) raises; or all the pages are
    read.  The reads have no effect, so it does not matter which of them
    raises. *)
Inductive opened :=
| OpenRaises
| ReadRaises
| Opened (doc : document).

(** A call returns a value or lets an exception escape. *)
Inductive outcome (A : Type) :=
| Returned (a : A)
| Raised.
Arguments Returned {A} a.
Arguments Raised {A}.

(** How the loop of the batch ends. *)
Inductive batch_end :=
| Completed
| Aborted.

Section Batch.
Context {T : UnicodeTables}.

Variable fitz_open : str -> opened.

(** Only [fitz.open] is inside the [try]. *)
Definition process_pdf_document (pdf_path : str) : outcome result :=
  match fitz_open pdf_path with
  | OpenRaises => Returned (Result (u "Error processing " ++ Path.basename pdf_path) [])
  | ReadRaises => Raised
  | Opened doc => Returned (process_document doc)
  end.

Definition output_path_of (output_dir filename : str) : str :=
  Path.join output_dir (Path.splitext_root filename ++ u ".json").

Definition is_pdf_name (filename : str) : bool :=
  PyStr.endswith (PyStr.lower filename) (u ".pdf").

(** [process_all_pdfs]: [listing] is [os.listdir(input_dir)].  The files of
    the output directory are a map from path to the value that [json.dump]
    receives.  The test [if structured_data] is on a dictionary that always
    has its two keys, so it always succeeds.  The loop has no [try]: an
    exception that escapes [process_pdf_document] ends it, and the files
    written before stay. *)
Fixpoint process_all_pdfs (input_dir output_dir : str)
    (listing : list str) (files : gmap str result) : gmap str result * batch_end :=
  match listing with
  | [] => (files, Completed)
  | filename :: rest =>
      if is_pdf_name filename then
        let pdf_path := Path.join input_dir filename in
        match process_pdf_document pdf_path with
        | Returned structured_data =>
            process_all_pdfs input_dir output_dir rest
              (<[output_path_of output_dir filename := structured_data]> files)
        | Raised => (files, Aborted)
        end
      else process_all_pdfs input_dir output_dir rest files
  end.


(** No PDF entry of the listing raises. *)
Definition all_return (input_dir : str) (listing : list str) : Prop :=
  forall f, f ∈ listing -> is_pdf_name f = true ->
            process_pdf_document (Path.join input_dir f) <> Raised.

End Batch.

Definition write_file (files : gmap str result) (w : str * result)
  : gmap str result :=
  <[fst w := snd w]> files.

(** ** The ignore set as a hash table lays it out

    The order in which a [set] of strings iterates depends on the hashes of
    the run.  Here the set is the list of its elements in that order, and
    [place] is the layout: the position that a new element takes.  The source
    only adds to the set and tests membership. *)

Module Laid.

Definition add (place : str -> list str -> nat) (x : str) (s : list str) : list str :=
  if bool_decide (x ∈ s) then s
  else take (place x s) s ++ x :: drop (place x s) s.

(** The list [l] is a layout of the set [g]. *)
Definition lays_out (l : list str) (g : gset str) : Prop :=
  forall y, y ∈ l <-> y ∈ g.

Section Laid.
Context {T : UnicodeTables}.
Variable place : str -> list str -> nat.

Definition title_step (max_font_size : Z) (acc : list str * list str)
    (b : block) : list str * list str :=
  match first_line_spans b with
  | Some (sp, sps) =>
      let line_text := line_text_of sps in
      if (py_round (span_size sp) =? max_font_size)%Z
      then (fst acc ++ [line_text], snd acc)
      else (fst acc, add place line_text (snd acc))
  | None => acc
  end.

Definition analyze_first_page (doc : document) : str * list str :=
  let title := title_not_found in
  match doc with
  | [] => (title, [])
  | first_page :: _ =>
      match blocks first_page with
      | [] => (title, [])
      | bs =>
          let max_font_size := foldl max_size_step 0%Z bs in
          if (max_font_size =? 0)%Z then
            match text_blocks first_page with
            | t :: _ => (PyStr.split_first PyStr.newline (PyStr.strip t), [])
            | [] => (title, [])
            end
          else
            let '(title_lines, texts_to_ignore) :=
              foldl (title_step max_font_size) ([], []) bs in
            (match title_lines with
             | [] => title
             | _ => PyStr.join [PyStr.space] title_lines
             end, texts_to_ignore)
      end
  end.

Definition outline_block (doc_title : str) (texts_to_ignore : list str)
    (style_to_level : list (style * str)) (page_num : nat)
    (acc : list outline_entry) (b : block) : list outline_entry :=
  match first_line_spans b with
  | None => acc
  | Some (sp, sps) =>
      let line_text := line_text_of sps in
      if PyStr.is_empty line_text
         || PyStr.eqb line_text doc_title
         || bool_decide (line_text ∈ texts_to_ignore)
      then acc
      else
        let current_style := style_of sp in
        if Dict.mem current_style style_to_level && is_valid_heading line_text
        then
          match Dict.get current_style style_to_level with
          | Some lvl =>
              if negb (PyStr.is_empty lvl)
                 && PyStr.in_list lvl [u "H1"; u "H2"; u "H3"]
              then acc ++ [Entry lvl line_text (page_num + 1)]
              else acc
          | None => acc
          end
        else acc
  end.

Definition assemble_outline (doc : document) (doc_title : str)
    (texts_to_ignore : list str) (style_to_level : list (style * str))
  : list outline_entry :=
  foldl (fun acc ip =>
           foldl (outline_block doc_title texts_to_ignore style_to_level (fst ip))
                 acc (blocks (snd ip)))
        [] (enumerate doc).

Definition process_document (doc : document) : result :=
  let '(doc_title, texts_to_ignore) := analyze_first_page doc in
  let start_page_for_styles := if (1 <? length doc)%nat then 1%nat else 0%nat in
  let '(style_to_level, _) := get_style_hierarchy doc start_page_for_styles in
  match style_to_level with
  | [] => Result doc_title []
  | _ => Result doc_title
           (assemble_outline doc doc_title texts_to_ignore style_to_level)
  end.

Definition process_pdf_document (fitz_open : str -> opened) (pdf_path : str)
  : outcome result :=
  match fitz_open pdf_path with
  | OpenRaises => Returned (Result (u "Error processing " ++ Path.basename pdf_path) [])
  | ReadRaises => Raised
  | Opened doc => Returned (process_document doc)
  end.

End Laid.

End Laid.

(** ** The rules of the validator, as the specification words them *)

Module Rules.

Section Rules.
Context {T : UnicodeTables}.

(** Rule 1: empty or made of white space only. *)
Definition whitespace_only (t : str) : Prop :=
  Forall (fun c => PyStr.isspace c = true) t.

(** Rule 2: a run of digits and dots, or the token S.No in any case. *)
Definition digit_or_dot (a : char) : bool :=
  PyStr.is_decimal a || (a =? PyStr.dot)%N.

Definition digits_and_dots (t : str) : Prop :=
  t <> [] /\ Forall (fun c => PyStr.is_decimal c = true \/ c = PyStr.dot) t.

(** [t] is the token when case is ignored: character by character, in the
    way [re.IGNORECASE] compares a character with a literal. *)
Definition is_token_ignoring_case (token t : str) : Prop :=
  Forall2 (fun c a => Re.lit_matches true c a = true) token t.

Definition list_marker (t : str) : Prop :=
  digits_and_dots t \/ is_token_ignoring_case (u "S.No") t.

(** Rule 3: ends in a period and has more than four words. *)
Definition ends_in_period (t : str) : Prop := exists p, t = p ++ [PyStr.dot].

Definition long_sentence (t : str) : Prop :=
  ends_in_period t /\ (4 < length (PyStr.split t))%nat.

(** Rule 4: in lower case, one of the form labels. *)
Definition form_label (t : str) : Prop :=
  exists l, l ∈ form_labels /\ PyStr.lower t = l.

(** The four rules on one text. *)
Definition rejected (t : str) : Prop :=
  whitespace_only t \/ list_marker t \/ long_sentence t \/ form_label t.

(** The four rules with rules 2 to 4 read on the stripped text. *)
Definition rejected_stripped (t : str) : Prop :=
  whitespace_only t \/ list_marker (PyStr.strip t)
  \/ long_sentence (PyStr.strip t) \/ form_label (PyStr.strip t).

End Rules.

End Rules.

(** The language of a regular expression, which [Re.fullmatch] decides. *)
Inductive re_matches `{UnicodeTables} (ic : bool) : Re.regex -> str -> Prop :=
| MEps : re_matches ic Re.Eps []
| MLit c a :
    Re.lit_matches ic c a = true -> re_matches ic (Re.Lit c) [a]
| MSet items a :
    Re.set_matches ic items a = true -> re_matches ic (Re.Set_ items) [a]
| MCat r1 r2 s1 s2 :
    re_matches ic r1 s1 -> re_matches ic r2 s2 ->
    re_matches ic (Re.Cat r1 r2) (s1 ++ s2)
| MAltL r1 r2 s : re_matches ic r1 s -> re_matches ic (Re.Alt r1 r2) s
| MAltR r1 r2 s : re_matches ic r2 s -> re_matches ic (Re.Alt r1 r2) s
| MStarNil r : re_matches ic (Re.Star r) []
| MStarApp r s1 s2 :
    re_matches ic r s1 -> re_matches ic (Re.Star r) s2 ->
    re_matches ic (Re.Star r) (s1 ++ s2).

(** ** The outline, as the specification words it *)

Definition heading_levels : list str := [u "H1"; u "H2"; u "H3"].

Section OutlineSpec.
Context {T : UnicodeTables}.

(** The entry that the first line of a block contributes: its text is not
    empty, is not the title and is not ignored, its style is a key of the
    level map and its text passes the validator. *)
Definition first_line_entry (doc_title : str) (texts_to_ignore : gset str)
    (style_to_level : list (style * str)) (page_num : nat) (b : block)
  : option outline_entry :=
  match first_line_spans b with
  | Some (sp, sps) =>
      let t := line_text_of sps in
      match Dict.get (style_of sp) style_to_level with
      | Some lvl =>
          if bool_decide (t <> [] /\ t <> doc_title /\ (t ∉ texts_to_ignore))
             && is_valid_heading t
          then Some (Entry lvl t (page_num + 1))
          else None
      | None => None
      end
  | None => None
  end.

(** The entries of all pages in document order. *)
Definition outline_of_first_lines (doc : document) (doc_title : str)
    (texts_to_ignore : gset str) (style_to_level : list (style * str))
  : list outline_entry :=
  concat (imap (fun i p =>
                  omap (first_line_entry doc_title texts_to_ignore style_to_level i)
                       (blocks p))
               doc).

(** The start page of the style learner and the map it learns. *)
Definition start_page_for_styles (doc : document) : nat :=
  if (1 <? length doc)%nat then 1%nat else 0%nat.

Definition learned_levels (doc : document) : list (style * str) :=
  fst (get_style_hierarchy doc (start_page_for_styles doc)).

End OutlineSpec.

(** The candidate heading styles of a table, none for an empty table. *)
Definition candidates_of (style_counts : list (style * nat)) : list style :=
  match Dict.most_common1 style_counts with
  | Some (body_style, _) => candidate_styles style_counts body_style
  | None => []
  end.

(** The level map of a table pairs H1, H2 and H3 with the first three of the
    candidate styles, taken by descending size, those of one size in the
    order of the table. *)
Definition top_three_levels (style_counts : list (style * nat)) : Prop :=
  exists body_style n sorted,
    Dict.most_common1 style_counts = Some (body_style, n) /\
    (forall s, s ∈ candidate_styles style_counts body_style <->
               s ∈ Dict.keys style_counts /\
               ((fst body_style < fst s)%Z
                \/ (fst s = fst body_style /\ snd s = true /\ s <> body_style))) /\
    sorted ≡ₚ candidate_styles style_counts body_style /\
    StronglySorted size_ge sorted /\
    (forall z : Z, filter (fun s => fst s = z) sorted
                   = filter (fun s => fst s = z)
                            (candidate_styles style_counts body_style)) /\
    fst (hierarchy_of_counts style_counts) = zip (take 3 sorted) heading_levels.

(** A line with a span: a text run. *)
Definition has_run (p : page) : Prop :=
  exists b ls l, b ∈ blocks p /\ lines b = Some ls /\ l ∈ ls /\ spans l <> [].

(** The pages beyond the first contain no text run. *)
Definition body_pages_empty (doc : document) : Prop :=
  forall p, p ∈ drop 1 doc -> ~ has_run p.

(** The reading of the assembler that looks at every line of every block: a
    line with a span, that is not skipped, whose style has a level and whose
    text is a valid heading, has an entry in the outline. *)
Definition every_line_emitted `{UnicodeTables} (doc : document) : Prop :=
  forall i p b ls l sp,
    doc !! i = Some p -> b ∈ blocks p -> lines b = Some ls -> l ∈ ls ->
    head (spans l) = Some sp ->
    let t := line_text_of (spans l) in
    t <> [] -> t <> fst (analyze_first_page doc) ->
    t ∉ snd (analyze_first_page doc) ->
    forall lvl, Dict.get (style_of sp) (learned_levels doc) = Some lvl ->
    is_valid_heading t = true ->
    Entry lvl t (i + 1) ∈ outline (process_document doc).

(** ** The first page and the counted lines, read as lists *)

(** The first lines, with a span, of the blocks of a page: the first span of
    each with all its spans. *)
Definition first_lines (p : page) : list (span * list span) :=
  omap first_line_spans (blocks p).

(** The value of [max_font_size] after the first loop of
    [analyze_first_page]. *)
Definition max_font_size_of (p : page) : Z := foldl max_size_step 0%Z (blocks p).

Definition first_line_size (x : span * list span) : Z :=
  py_round (span_size (fst x)).

(** The texts of the first lines of the largest size, in the order of the
    blocks, and the texts of the other first lines. *)
Definition title_fragments (p : page) : list str :=
  map (fun x => line_text_of (snd x))
      (filter (fun x => first_line_size x = max_font_size_of p) (first_lines p)).

Definition ignored_texts (p : page) : list str :=
  map (fun x => line_text_of (snd x))
      (filter (fun x => first_line_size x <> max_font_size_of p) (first_lines p)).

Section Scanned.
Context {T : UnicodeTables}.

(** The styles that the learner counts on a page: the style of the first span
    of every line that has a span, in the order of the page. *)
Definition block_styles (b : block) : list style :=
  match lines b with
  | Some ls => omap (fun l => option_map style_of (head (spans l))) ls
  | None => []
  end.

Definition page_styles (p : page) : list style :=
  concat (map block_styles (blocks p)).

Definition scanned_styles (doc : document) (start_page : nat) : list style :=
  concat (map page_styles (drop start_page doc)).

End Scanned.

(** How often a style occurs in a list of styles. *)
Definition occurrences (s : style) (l : list style) : nat :=
  length (filter (fun x => x = s) l).

(** The number of blocks of a document. *)
Definition total_blocks (doc : document) : nat :=
  length (concat (map blocks doc)).

(** The title when the first page has no first line of a positive size. *)
Definition fallback_title (doc : document) : str :=
  match doc with
  | p :: _ =>
      match blocks p, text_blocks p with
      | _ :: _, t :: _ => PyStr.split_first PyStr.newline (PyStr.strip t)
      | _, _ => title_not_found
      end
  | [] => title_not_found
  end.

(** The character [c] does not occur in [s]. *)
Fixpoint no_char (c : char) (s : str) : bool :=
  match s with
  | [] => true
  | a :: s' => negb (a =? c)%N && no_char c s'
  end.



(** ** Sample documents *)

Module Samples.

Definition run (t : string) (pt : Z) : span := Span (u t) (pt # 1) (u "Helvetica").
Definition one_line (t : string) (pt : Z) : block := Block (Some [Line [run t pt]]).

(** Two pages; the heading of page 2 is the second line of its block. *)
Definition heading_inside_block : document :=
  [ Page [one_line "Guide" 24] [];
    Page [Block (Some [Line [run "lead paragraph" 10]; Line [run "Heading" 16]]);
          Block (Some [Line [run "more text" 10]; Line [run "and more" 10]])] [] ].

(** Two pages; the title spreads over two blocks of page 1. *)
Definition two_line_title : document :=
  [ Page [one_line "Annual" 24; one_line "Report" 24] [];
    Page [one_line "Introduction" 24; one_line "first" 10; one_line "second" 10] [] ].

(** One page: a title over two blocks and three lines of text. *)
Definition single_page : document :=
  [ Page [one_line "Annual" 24; one_line "Report" 24;
          one_line "first" 10; one_line "second" 10; one_line "third" 10] [] ].

(** Two pages, the second without any text. *)
Definition empty_body : document :=
  [ Page [one_line "Annual" 24; one_line "Report" 24; one_line "first" 10] [];
    Page [Block None; Block (Some [Line []])] [] ].

(** Three pages: body text of size 10 and three lines of size 16. *)
Definition report : document :=
  [ Page [one_line "Report Title" 24; one_line "A subtitle" 14] [];
    Page [one_line "Introduction" 16; one_line "some text" 10;
          one_line "more text" 10; one_line "1.2" 16; one_line "and more" 10] [];
    Page [one_line "closing text" 10; one_line "Conclusion" 16;
          one_line "the end" 10] [] ].

(** A table with four candidate styles, two of them of size 16. *)
Definition table : list (style * nat) :=
  [ ((10%Z, false), 5%nat); ((16%Z, false), 2%nat); ((10%Z, true), 1%nat);
    ((24%Z, false), 1%nat); ((16%Z, true), 1%nat); ((9%Z, true), 3%nat) ].

(** Three pages of a form: one style for all the lines of pages 2 and 3. *)
Definition form : document :=
  [ Page [one_line "Application Form" 18; one_line "Office use only" 10] [];
    Page [one_line "Name" 10; one_line "Age" 10; one_line "Address" 10] [];
    Page [one_line "Date" 10; one_line "Signature" 10] [] ].

(** A directory with a file that cannot be opened. *)
Definition sample_open (path : str) : opened :=
  if bool_decide (path = u "./input/good.pdf") then Opened two_line_title
  else if bool_decide (path = u "./input/other.PDF") then Opened heading_inside_block
  else OpenRaises.

Definition sample_listing : list str :=
  map u ["good.pdf"; "notes.txt"; "broken.pdf"; "other.PDF"].

(** A directory with a file that opens and whose pages cannot be read. *)
Definition locked_open (path : str) : opened :=
  if bool_decide (path = u "./input/good.pdf") then Opened two_line_title
  else if bool_decide (path = u "./input/locked.pdf") then ReadRaises
  else OpenRaises.

(** Two layouts of a set: new elements first, new elements last. *)
Definition place_first (x : str) (s : list str) : nat := 0.
Definition place_last (x : str) (s : list str) : nat := length s.

End Samples.

(** * Properties *)

(** ** The functions on sample inputs *)

Section Examples.
Context {T : UnicodeTables}.

Example is_valid_heading_examples :
  map (fun s => is_valid_heading (u s))
      ["Introduction"; "1.2"; "s.NO"; "Please sign below for approval.";
       "Sign below now please."; "  Name "; ""]
  = [true; false; false; false; true; false; false].
Proof. vm_compute. reflexivity. Qed.

Example py_round_half_even :
  map py_round [5 # 2; 7 # 2; (-5) # 2; 239 # 10; 12 # 1]%Q = [2; 4; -2; 24; 12]%Z.
Proof. reflexivity. Qed.

Example splitext_examples :
  map Path.splitext_root (map u ["report.pdf"; "a.b.PDF"; ".pdf"; "dir.x/file"])
  = map u ["report"; "a.b"; ".pdf"; "dir.x/file"].
Proof. vm_compute. reflexivity. Qed.

Example basename_example :
  Path.basename (Path.join (u "./input") (u "a.pdf")) = u "a.pdf".
Proof. vm_compute. reflexivity. Qed.

Example report_outline :
  process_document Samples.report
  = Result (u "Report Title")
      [Entry (u "H1") (u "Introduction") 2; Entry (u "H1") (u "Conclusion") 3].
Proof. vm_compute. reflexivity. Qed.

Example batch_output :
  fst (process_all_pdfs Samples.sample_open (u "./input") (u "./output")
         Samples.sample_listing ∅) !! u "./output/broken.json"
  = Some (Result (u "Error processing broken.pdf") []).
Proof. vm_compute. reflexivity. Qed.

End Examples.

(** ** Strings *)

Section StringFacts.
Import PyStr.

Lemma is_empty_true (s : str) : is_empty s = true <-> s = [].
Proof. destruct s; simpl; split; auto; discriminate. Qed.

Lemma lstrip_cases (s : str) :
  lstrip s = [] \/ exists c r, lstrip s = c :: r /\ isspace c = false.
Proof.
  induction s as [|c s IH]; simpl; [now left |].
  destruct (isspace c) eqn:Hc; [exact IH |].
  right. now exists c, s.
Qed.

Lemma rstrip_cons_nonspace (c : char) (s : str) :
  isspace c = false -> rstrip (c :: s) = c :: rstrip s.
Proof. intros Hc. simpl. rewrite Hc. now destruct (rstrip s). Qed.

Lemma rstrip_idempotent (s : str) : rstrip (rstrip s) = rstrip s.
Proof.
  induction s as [|c s IH]; simpl; [reflexivity |].
  destruct (rstrip s) as [|a r] eqn:Hr.
  - destruct (isspace c) eqn:Hc; simpl; [reflexivity | now rewrite Hc].
  - change (rstrip (c :: a :: r)) with
      (match rstrip (a :: r) with
       | [] => if isspace c then [] else [c]
       | a' :: r' => c :: a' :: r'
       end).
    now rewrite IH.
Qed.

Lemma lstrip_strip (s : str) : lstrip (strip s) = strip s.
Proof.
  unfold strip. destruct (lstrip_cases s) as [-> | (c & r & -> & Hc)].
  - reflexivity.
  - rewrite rstrip_cons_nonspace by assumption. simpl. now rewrite Hc.
Qed.

Lemma strip_idempotent (s : str) : strip (strip s) = strip s.
Proof.
  unfold strip at 1. rewrite lstrip_strip. unfold strip.
  apply rstrip_idempotent.
Qed.

Lemma rstrip_empty (s : str) : rstrip s = [] <-> Rules.whitespace_only s.
Proof.
  unfold Rules.whitespace_only.
  induction s as [|c s IH]; simpl.
  - split; [constructor | reflexivity].
  - destruct (rstrip s) as [|a r] eqn:Hr.
    + destruct (isspace c) eqn:Hc.
      * split; [intros _; constructor; [exact Hc | now apply IH] | reflexivity].
      * split; [discriminate | intros H; inversion H; congruence].
    + split; [discriminate |].
      intros H. inversion H as [|? ? _ Hs]; subst.
      apply IH in Hs. discriminate.
Qed.

Lemma lstrip_whitespace (s : str) :
  Rules.whitespace_only (lstrip s) <-> Rules.whitespace_only s.
Proof.
  unfold Rules.whitespace_only.
  induction s as [|c s IH]; simpl; [reflexivity |].
  destruct (isspace c) eqn:Hc.
  - rewrite IH. split; [now constructor | intros H; now inversion H].
  - reflexivity.
Qed.

Lemma strip_empty (s : str) : strip s = [] <-> Rules.whitespace_only s.
Proof. unfold strip. now rewrite rstrip_empty, lstrip_whitespace. Qed.

(** White space in front of a text and behind it. *)
Lemma lstrip_app_whitespace (w t : str) :
  Rules.whitespace_only w -> lstrip (w ++ t) = lstrip t.
Proof.
  induction 1 as [|c w Hc _ IH]; simpl; [reflexivity |]. now rewrite Hc.
Qed.

Lemma rstrip_app_whitespace (t w : str) :
  Rules.whitespace_only w -> rstrip (t ++ w) = rstrip t.
Proof.
  intros Hw. induction t as [|c t IH]; simpl.
  - now apply rstrip_empty.
  - now rewrite IH.
Qed.

Lemma lstrip_app_r (t w : str) :
  lstrip t <> [] -> lstrip (t ++ w) = lstrip t ++ w.
Proof.
  induction t as [|c t IH]; simpl; [congruence |].
  destruct (isspace c); [exact IH | reflexivity].
Qed.

Lemma strip_padding (w1 t w2 : str) :
  Rules.whitespace_only w1 -> Rules.whitespace_only w2 ->
  strip (w1 ++ t ++ w2) = strip t.
Proof.
  intros H1 H2. unfold strip. rewrite lstrip_app_whitespace by exact H1.
  destruct (lstrip t) as [|c r] eqn:Ht.
  - assert (Hw : Rules.whitespace_only (t ++ w2)).
    { apply Forall_app. split; [| exact H2].
      apply lstrip_whitespace. rewrite Ht. constructor. }
    apply lstrip_whitespace in Hw. now apply rstrip_empty.
  - rewrite lstrip_app_r by (rewrite Ht; discriminate).
    rewrite Ht. now apply rstrip_app_whitespace.
Qed.

Lemma lstrip_decompose (s : str) :
  exists w, s = w ++ lstrip s /\ Rules.whitespace_only w.
Proof.
  induction s as [|c s (w & Hs & Hw)]; simpl.
  - exists []. split; [reflexivity | constructor].
  - destruct (isspace c) eqn:Hc.
    + exists (c :: w). split; [simpl; now f_equal | now constructor].
    + exists []. split; [reflexivity | constructor].
Qed.

Lemma rstrip_decompose (s : str) :
  exists w, s = rstrip s ++ w /\ Rules.whitespace_only w.
Proof.
  induction s as [|c s (w & Hs & Hw)]; simpl.
  - exists []. split; [reflexivity | constructor].
  - destruct (rstrip s) as [|a r] eqn:Hr.
    + destruct (isspace c) eqn:Hc.
      * exists (c :: s). split; [reflexivity |].
        constructor; [exact Hc |]. now apply rstrip_empty.
      * exists w. simpl in Hs. split; [simpl; now f_equal | exact Hw].
    + exists w. split; [simpl; now f_equal | exact Hw].
Qed.

Lemma strip_decompose (s : str) :
  exists w1 w2,
    s = w1 ++ strip s ++ w2
    /\ Rules.whitespace_only w1 /\ Rules.whitespace_only w2.
Proof.
  destruct (lstrip_decompose s) as (w1 & H1 & Hw1).
  destruct (rstrip_decompose (lstrip s)) as (w2 & H2 & Hw2).
  exists w1, w2. unfold strip. now rewrite <- H2.
Qed.

Lemma endswith_spec (s suffix : str) :
  endswith s suffix = true <-> exists p, s = p ++ suffix.
Proof.
  induction s as [|a s IH]; simpl.
  - rewrite orb_false_r. unfold eqb. rewrite bool_decide_eq_true. split.
    + intros <-. now exists [].
    + intros [p Hp]. symmetry in Hp. apply app_eq_nil in Hp as [_ Hp]. now symmetry.
  - rewrite orb_true_iff, IH. unfold eqb. rewrite bool_decide_eq_true. split.
    + intros [<- | [p ->]]; [now exists [] | now exists (a :: p)].
    + intros [[|b p] Hp]; simpl in Hp; [now left |].
      right. injection Hp as <- ->. now exists p.
Qed.

Lemma in_list_spec (x : str) (l : list str) : in_list x l = true <-> x ∈ l.
Proof. unfold in_list. apply bool_decide_eq_true. Qed.

End StringFacts.

(** ** Regular expressions: [Re.fullmatch] decides [re_matches] *)

Section RegexFacts.
Import Re.
Context {T : UnicodeTables}.
Variable ic : bool.

Lemma nullable_spec (r : regex) : nullable r = true <-> re_matches ic r [].
Proof.
  split.
  - induction r; simpl; intros H; try discriminate.
    + constructor.
    + apply andb_true_iff in H as [H1 H2].
      change (@nil char) with (@nil char ++ @nil char).
      constructor; auto.
    + apply orb_true_iff in H as [H | H];
        [apply MAltL | apply MAltR]; auto.
    + constructor.
  - intros H. remember (@nil char) as s eqn:Hs.
    induction H; simpl; try discriminate; try reflexivity.
    + apply app_eq_nil in Hs as [-> ->].
      rewrite IHre_matches1, IHre_matches2; auto.
    + rewrite IHre_matches; auto.
    + rewrite IHre_matches; auto. apply orb_true_r.
Qed.

Lemma deriv_sound (a : char) (r : regex) (s : str) :
  re_matches ic (deriv ic a r) s -> re_matches ic r (a :: s).
Proof.
  revert s. induction r; simpl; intros s H.
  - inversion H.
  - inversion H.
  - destruct (lit_matches ic c a) eqn:Hc; inversion H; subst.
    now constructor.
  - destruct (set_matches ic items a) eqn:Hc; inversion H; subst.
    now constructor.
  - assert (Hleft : forall t, re_matches ic (Cat (deriv ic a r1) r2) t ->
                              re_matches ic (Cat r1 r2) (a :: t)).
    { intros t Ht. inversion Ht; subst.
      change (a :: s1 ++ s2) with ((a :: s1) ++ s2).
      constructor; auto. }
    destruct (nullable r1) eqn:Hn; [| now apply Hleft].
    inversion H; subst; [now apply Hleft |].
    change (a :: s) with ([] ++ a :: s).
    constructor; [now apply nullable_spec | auto].
  - inversion H; subst; [apply MAltL | apply MAltR]; auto.
  - inversion H; subst.
    change (a :: s1 ++ s2) with ((a :: s1) ++ s2).
    constructor; auto.
Qed.

Lemma deriv_complete (a : char) (r : regex) (s : str) :
  re_matches ic r (a :: s) -> re_matches ic (deriv ic a r) s.
Proof.
  intros H. remember (a :: s) as t eqn:Ht. revert s Ht.
  induction H as [ | c b Hb | items b Hb | r1 r2 s1 s2 H1 IH1 H2 IH2
                 | r1 r2 s0 H1 IH1 | r1 r2 s0 H2 IH2 | r0
                 | r0 s1 s2 H1 IH1 H2 IH2 ];
    intros w Ht; simpl; try discriminate.
  - inversion Ht; subst. rewrite Hb. constructor.
  - inversion Ht; subst. rewrite Hb. constructor.
  - destruct s1 as [|b s1]; simpl in Ht.
    + subst s2.
      assert (Hn : nullable r1 = true) by now apply nullable_spec.
      rewrite Hn. apply MAltR. now apply IH2.
    + inversion Ht; subst.
      assert (Hc : re_matches ic (Cat (deriv ic a r1) r2) (s1 ++ s2))
        by (constructor; [now apply IH1 | assumption]).
      destruct (nullable r1); [now apply MAltL | assumption].
  - apply MAltL. now apply IH1.
  - apply MAltR. now apply IH2.
  - destruct s1 as [|b s1]; simpl in Ht.
    + now apply IH2.
    + inversion Ht; subst. constructor; [now apply IH1 | assumption].
Qed.

Lemma fullmatch_spec (r : regex) (s : str) :
  fullmatch ic r s = true <-> re_matches ic r s.
Proof.
  revert r. induction s as [|a s IH]; intros r; simpl.
  - apply nullable_spec.
  - rewrite IH. split; [apply deriv_sound | apply deriv_complete].
Qed.

End RegexFacts.

(** ** The pattern of rule 2 *)

Section MarkerFacts.
Import PyStr Re.
Context {T : UnicodeTables}.

Lemma marker_set_matches (a : char) :
  set_matches true [IDigit; IChar dot] a = Rules.digit_or_dot a.
Proof.
  unfold set_matches, Rules.digit_or_dot. simpl.
  now rewrite orb_false_r.
Qed.

Lemma digit_or_dot_spec (a : char) :
  Rules.digit_or_dot a = true <-> is_decimal a = true \/ a = dot.
Proof.
  unfold Rules.digit_or_dot. rewrite orb_true_iff, N.eqb_eq. reflexivity.
Qed.

Lemma star_set_spec (s : str) :
  re_matches true (Star (Set_ [IDigit; IChar dot])) s <->
  Forall (fun c => is_decimal c = true \/ c = dot) s.
Proof.
  split.
  - intros H. remember (Star (Set_ [IDigit; IChar dot])) as r eqn:Hr.
    induction H as [ | | | | | | r0 | r0 s1 s2 H1 _ H2 IH2 ]; try discriminate.
    + constructor.
    + inversion Hr; subst r0. inversion H1; subst. simpl.
      constructor; [| now apply IH2].
      apply digit_or_dot_spec. now rewrite <- marker_set_matches.
  - induction s as [|a s IH]; intros H.
    + constructor.
    + inversion H as [|? ? Ha Hs]; subst.
      change (a :: s) with ([a] ++ s).
      constructor; [| now apply IH].
      constructor. rewrite marker_set_matches. now apply digit_or_dot_spec.
Qed.

Lemma plus_set_spec (s : str) :
  re_matches true (Plus (Set_ [IDigit; IChar dot])) s <-> Rules.digits_and_dots s.
Proof.
  unfold Plus, Rules.digits_and_dots. split.
  - intros H. inversion H as [ | | | r1 r2 s1 s2 H1 H2 | | | | ]; subst.
    inversion H1; subst. split; [discriminate |].
    apply star_set_spec. apply MStarApp; assumption.
  - intros [Hne H]. destruct s as [|a s]; [congruence |].
    inversion H as [|? ? Ha Hs]; subst.
    change (a :: s) with ([a] ++ s).
    constructor; [| now apply star_set_spec].
    constructor. rewrite marker_set_matches. now apply digit_or_dot_spec.
Qed.

Lemma lit_spec (c : char) (s : str) :
  re_matches true (Lit c) s <-> exists a, s = [a] /\ lit_matches true c a = true.
Proof.
  split.
  - intros H. inversion H as [ | c' a' Hc | | | | | | ]; subst. now exists a'.
  - intros (a & -> & H). now constructor.
Qed.

Lemma sno_spec (s : str) :
  re_matches true
    (Cat (Lit (ch "S")) (Cat (Lit dot) (Cat (Lit (ch "N")) (Lit (ch "o"))))) s
  <-> Rules.is_token_ignoring_case (u "S.No") s.
Proof.
  unfold Rules.is_token_ignoring_case. split.
  - intros H.
    inversion H as [ | | | ? ? s1 t1 H1 H1' | | | | ]; subst.
    inversion H1' as [ | | | ? ? s2 t2 H2 H2' | | | | ]; subst.
    inversion H2' as [ | | | ? ? s3 t3 H3 H3' | | | | ]; subst.
    apply lit_spec in H1 as (a1 & -> & E1).
    apply lit_spec in H2 as (a2 & -> & E2).
    apply lit_spec in H3 as (a3 & -> & E3).
    apply lit_spec in H3' as (a4 & -> & E4).
    repeat constructor; assumption.
  - intros H.
    change (u "S.No") with [ch "S"; dot; ch "N"; ch "o"] in H.
    inversion H as [|? a1 ? l1 E1 H1]; subst.
    inversion H1 as [|? a2 ? l2 E2 H2]; subst.
    inversion H2 as [|? a3 ? l3 E3 H3]; subst.
    inversion H3 as [|? a4 ? l4 E4 H4]; subst.
    inversion H4; subst.
    change [a1; a2; a3; a4] with ([a1] ++ [a2] ++ [a3] ++ [a4]).
    repeat constructor; assumption.
Qed.

Lemma marker_pattern_spec (s : str) :
  fullmatch true marker_pattern s = true <-> Rules.list_marker s.
Proof.
  rewrite fullmatch_spec. unfold marker_pattern, Rules.list_marker.
  rewrite <- plus_set_spec, <- sno_spec. split.
  - intros H. inversion H; subst; [now left | now right].
  - intros [H | H]; [now apply MAltL | now apply MAltR].
Qed.

Lemma form_label_spec (s : str) :
  in_list (lower s) form_labels = true <-> Rules.form_label s.
Proof.
  rewrite in_list_spec. unfold Rules.form_label. split.
  - intros H. now exists (lower s).
  - intros (l & Hl & <-). exact Hl.
Qed.

Lemma long_sentence_spec (s : str) :
  endswith s [dot] && (4 <? length (split s))%nat = true
  <-> Rules.long_sentence s.
Proof.
  unfold Rules.long_sentence, Rules.ends_in_period.
  rewrite andb_true_iff, endswith_spec, Nat.ltb_lt. reflexivity.
Qed.

(** The validator as the disjunction of its four tests. *)
Lemma is_valid_heading_tests (t : str) :
  is_valid_heading t =
  negb (is_empty (strip t)
        || fullmatch true marker_pattern (strip t)
        || endswith (strip t) [dot] && (4 <? length (split (strip t)))%nat
        || in_list (lower (strip t)) form_labels).
Proof.
  unfold is_valid_heading.
  destruct (is_empty (strip t)); [reflexivity |].
  destruct (fullmatch true marker_pattern (strip t)); [reflexivity |].
  destruct (endswith (strip t) [dot] && (4 <? length (split (strip t)))%nat);
    [reflexivity |].
  now destruct (in_list (lower (strip t)) form_labels).
Qed.

Lemma is_valid_heading_rejected (t : str) :
  is_valid_heading t = false <-> Rules.rejected_stripped t.
Proof.
  rewrite is_valid_heading_tests, negb_false_iff, !orb_true_iff.
  rewrite is_empty_true, strip_empty, marker_pattern_spec,
    long_sentence_spec, form_label_spec.
  unfold Rules.rejected_stripped. tauto.
Qed.

(** The validator rejects " Name ", a text that none of the four rules
    matches when they are read on the text as it is given; this whatever the
    tables say beyond ASCII. *)
Lemma padded_label_any_tables :
  ~ (is_valid_heading (u " Name ") = false <-> Rules.rejected (u " Name ")).
Proof.
  intros [H _].
  assert (Hf : is_valid_heading (u " Name ") = false) by (vm_compute; reflexivity).
  specialize (H Hf).
  destruct H as [H | [[[_ H] | H] | [[_ H] | (l & Hl & H)]]].
  - inversion H as [|? ? _ Hs]; subst. inversion Hs as [|? ? Hn _]; subst.
    vm_compute in Hn. discriminate.
  - inversion H as [|? ? [Hd | Hd] _]; subst; vm_compute in Hd; discriminate.
  - apply Forall2_length in H. vm_compute in H. discriminate.
  - vm_compute in H. lia.
  - subst l. apply in_list_spec in Hl. vm_compute in Hl. discriminate.
Qed.

End MarkerFacts.

(** ** Dictionaries and counters *)

Section DictFacts.
Context {V : Type}.
Implicit Types (d : list (style * V)) (k : style) (v : V).

Lemma dict_get_None k d : Dict.get k d = None <-> k ∉ Dict.keys d.
Proof.
  induction d as [|[k' v'] d IH]; simpl.
  - split; [intros _; apply not_elem_of_nil | reflexivity].
  - rewrite not_elem_of_cons. destruct (decide (k = k')) as [-> | Hne].
    + split; [discriminate | intros [? _]; congruence].
    + rewrite IH. tauto.
Qed.

Lemma dict_get_elem_of k v d : Dict.get k d = Some v -> (k, v) ∈ d.
Proof.
  induction d as [|[k' v'] d IH]; simpl; [discriminate |].
  destruct (decide (k = k')) as [-> | Hne].
  - intros [= ->]. apply list_elem_of_here.
  - intros H. apply list_elem_of_further. auto.
Qed.

Lemma dict_mem_get k d : Dict.mem k d = true <-> is_Some (Dict.get k d).
Proof.
  unfold Dict.mem. destruct (Dict.get k d); split; intros H;
    try reflexivity; try discriminate; [eauto | destruct H; discriminate].
Qed.

Lemma dict_keys_set_old k v d :
  k ∈ Dict.keys d -> Dict.keys (Dict.set k v d) = Dict.keys d.
Proof.
  induction d as [|[k' v'] d IH]; simpl; intros Hin.
  - now apply elem_of_nil in Hin.
  - destruct (decide (k = k')) as [-> | Hne]; simpl; [reflexivity |].
    apply elem_of_cons in Hin as [? | Hin]; [congruence |].
    now rewrite IH.
Qed.

Lemma dict_keys_set_new k v d :
  k ∉ Dict.keys d -> Dict.keys (Dict.set k v d) = Dict.keys d ++ [k].
Proof.
  induction d as [|[k' v'] d IH]; simpl; intros Hin; [reflexivity |].
  apply not_elem_of_cons in Hin as [Hne Hin].
  destruct (decide (k = k')) as [-> | _]; [congruence |].
  simpl. now rewrite IH.
Qed.

Lemma dict_set_NoDup k v d :
  NoDup (Dict.keys d) -> NoDup (Dict.keys (Dict.set k v d)).
Proof.
  intros H. destruct (decide (k ∈ Dict.keys d)) as [Hk | Hk].
  - now rewrite dict_keys_set_old.
  - rewrite dict_keys_set_new by assumption.
    apply NoDup_app. split; [assumption |]. split.
    + intros x Hx Hx'. apply list_elem_of_singleton in Hx'. now subst.
    + apply NoDup_singleton.
Qed.

End DictFacts.

Section DocumentFacts.
Context {T : UnicodeTables}.

Lemma count_line_NoDup c l :
  NoDup (Dict.keys c) -> NoDup (Dict.keys (count_line c l)).
Proof.
  unfold count_line, Dict.incr. destruct (spans l); [auto |].
  apply dict_set_NoDup.
Qed.

Lemma count_block_NoDup c b :
  NoDup (Dict.keys c) -> NoDup (Dict.keys (count_block c b)).
Proof.
  unfold count_block. destruct (lines b) as [ls|]; [| auto].
  revert c. induction ls as [|l ls IH]; intros c H; simpl; [assumption |].
  apply IH. now apply count_line_NoDup.
Qed.

Lemma count_page_NoDup c p :
  NoDup (Dict.keys c) -> NoDup (Dict.keys (count_page c p)).
Proof.
  unfold count_page. generalize (blocks p) as bs. intros bs. revert c.
  induction bs as [|b bs IH]; intros c H; simpl; [assumption |].
  apply IH. now apply count_block_NoDup.
Qed.

(** The keys of the table that the learner counts are distinct. *)
Lemma count_styles_NoDup doc start_page :
  NoDup (Dict.keys (count_styles doc start_page)).
Proof.
  unfold count_styles. generalize (drop start_page doc) as ps.
  assert (H : NoDup (Dict.keys ([] : list (style * nat)))) by constructor.
  revert H. generalize ([] : list (style * nat)) as c.
  intros c H ps. revert c H.
  induction ps as [|p ps IH]; intros c H; simpl; [assumption |].
  apply IH. now apply count_page_NoDup.
Qed.

(** A page without text run leaves the table as it is. *)
Lemma count_page_no_run c p : ~ has_run p -> count_page c p = c.
Proof.
  unfold has_run, count_page. intros Hno.
  assert (Hb : forall b, b ∈ blocks p -> count_block c b = c).
  { intros b Hb. unfold count_block. destruct (lines b) as [ls|] eqn:Hls;
      [| reflexivity].
    assert (Hl : forall l, l ∈ ls -> spans l = []).
    { intros l Hl. destruct (spans l) eqn:Hs; [reflexivity |].
      exfalso. apply Hno. exists b, ls, l. rewrite Hs. now repeat split. }
    clear Hls. induction ls as [|l ls IH]; simpl; [reflexivity |].
    unfold count_line at 2. rewrite (Hl l) by apply list_elem_of_here.
    apply IH. intros l' Hl'. apply Hl. now apply list_elem_of_further. }
  revert Hb. generalize (blocks p) as bs.
  induction bs as [|b bs IH]; intros Hb; simpl; [reflexivity |].
  rewrite (Hb b) by apply list_elem_of_here.
  apply IH. intros b' Hb'. apply Hb. now apply list_elem_of_further.
Qed.

Lemma count_pages_no_run c ps :
  (forall p, p ∈ ps -> ~ has_run p) -> foldl count_page c ps = c.
Proof.
  induction ps as [|p ps IH]; intros H; simpl; [reflexivity |].
  rewrite count_page_no_run by (apply H, list_elem_of_here).
  apply IH. intros p' Hp'. apply H. now apply list_elem_of_further.
Qed.

Lemma most_common1_nonempty (c : list (style * nat)) :
  c <> [] -> exists body_style n, Dict.most_common1 c = Some (body_style, n).
Proof.
  destruct c as [|kv c]; [congruence |]. intros _. simpl.
  destruct (foldl _ kv c) as [b n]. now exists b, n.
Qed.

(** ** The stable sort by descending size *)

Lemma insert_desc_perm x l : insert_desc x l ≡ₚ x :: l.
Proof.
  induction l as [|y l IH]; simpl; [reflexivity |].
  destruct (fst x <? fst y)%Z; [| reflexivity].
  rewrite IH. apply Permutation_swap.
Qed.

Lemma sorted_desc_perm l : sorted_desc l ≡ₚ l.
Proof.
  induction l as [|x l IH]; simpl; [reflexivity |].
  rewrite insert_desc_perm. now rewrite IH.
Qed.

Lemma insert_desc_sorted x l :
  StronglySorted size_ge l -> StronglySorted size_ge (insert_desc x l).
Proof.
  induction l as [|y l IH]; simpl; intros H.
  - repeat constructor.
  - apply StronglySorted_inv in H as [Hl Hy].
    destruct (fst x <? fst y)%Z eqn:Hxy.
    + apply Z.ltb_lt in Hxy. constructor; [now apply IH |].
      rewrite insert_desc_perm. constructor; [unfold size_ge; lia | assumption].
    + apply Z.ltb_ge in Hxy. constructor; [now constructor |].
      constructor; [exact Hxy |].
      eapply Forall_impl; [exact Hy |].
      unfold size_ge. intros z Hz. lia.
Qed.

Lemma sorted_desc_sorted l : StronglySorted size_ge (sorted_desc l).
Proof.
  induction l as [|x l IH]; simpl; [constructor | now apply insert_desc_sorted].
Qed.

(** Stability: the styles of one size keep the order they had. *)
Lemma insert_desc_stable (z : Z) x l :
  filter (fun s => fst s = z) (insert_desc x l)
  = filter (fun s => fst s = z) (x :: l).
Proof.
  induction l as [|y l IH]; [reflexivity |].
  change (insert_desc x (y :: l))
    with (if (fst x <? fst y)%Z then y :: insert_desc x l else x :: y :: l).
  destruct (fst x <? fst y)%Z eqn:Hxy; [| reflexivity].
  apply Z.ltb_lt in Hxy.
  rewrite filter_cons in IH. rewrite !filter_cons.
  destruct (decide (fst y = z)), (decide (fst x = z)); try lia;
    try (f_equal; exact IH); exact IH.
Qed.

Lemma sorted_desc_stable (z : Z) l :
  filter (fun s => fst s = z) (sorted_desc l) = filter (fun s => fst s = z) l.
Proof.
  induction l as [|x l IH]; [reflexivity |].
  change (sorted_desc (x :: l)) with (insert_desc x (sorted_desc l)).
  rewrite insert_desc_stable, !filter_cons.
  destruct (decide (fst x = z)); [f_equal |]; exact IH.
Qed.

Lemma sorted_desc_NoDup l : NoDup l -> NoDup (sorted_desc l).
Proof. intros H. now rewrite sorted_desc_perm. Qed.

(** ** The level map *)

Lemma candidate_styles_spec style_counts body_style s :
  s ∈ candidate_styles style_counts body_style <->
  s ∈ Dict.keys style_counts /\
  ((fst body_style < fst s)%Z
   \/ (fst s = fst body_style /\ snd s = true /\ s <> body_style)).
Proof.
  unfold candidate_styles, is_heading_style.
  rewrite list_elem_of_filter, orb_true_iff, !andb_true_iff, negb_true_iff.
  rewrite Z.ltb_lt, Z.eqb_eq, bool_decide_eq_false. tauto.
Qed.

Lemma candidate_styles_NoDup style_counts body_style :
  NoDup (Dict.keys style_counts) ->
  NoDup (candidate_styles style_counts body_style).
Proof. intros H. now apply NoDup_filter. Qed.

(** On distinct styles the dictionary comprehension pairs the first three
    with the three levels. *)
Lemma level_map_zip (hs : list style) :
  NoDup hs -> level_map hs = zip (take 3 hs) heading_levels.
Proof.
  intros H. unfold level_map, enumerate, heading_levels.
  destruct hs as [|a [|b [|c hs]]]; try reflexivity.
  - apply NoDup_cons in H as [Hab _]. apply not_elem_of_cons in Hab as [Hab _].
    simpl. destruct (decide (b = a)); [congruence | reflexivity].
  - apply NoDup_cons in H as [Ha H]. apply NoDup_cons in H as [Hb _].
    apply not_elem_of_cons in Ha as [Hab Ha].
    apply not_elem_of_cons in Ha as [Hac _].
    apply not_elem_of_cons in Hb as [Hbc _].
    simpl. destruct (decide (b = a)); [congruence |].
    simpl. destruct (decide (c = a)); [congruence |].
    destruct (decide (c = b)); [congruence | reflexivity].
Qed.

Lemma level_map_values (hs : list style) :
  NoDup hs -> map snd (level_map hs) = take (min 3 (length hs)) heading_levels.
Proof.
  intros H. rewrite level_map_zip by assumption.
  unfold heading_levels. destruct hs as [|a [|b [|c hs]]]; reflexivity.
Qed.

Lemma level_map_keys (hs : list style) :
  NoDup hs -> Dict.keys (level_map hs) = take 3 hs.
Proof.
  intros H. rewrite level_map_zip by assumption.
  unfold heading_levels. destruct hs as [|a [|b [|c hs]]]; reflexivity.
Qed.

(** Every level of the map that a document teaches is H1, H2 or H3. *)
Lemma learned_levels_values doc :
  exists k, (k <= 3)%nat /\ map snd (learned_levels doc) = take k heading_levels.
Proof.
  unfold learned_levels, get_style_hierarchy, hierarchy_of_counts.
  destruct (Dict.most_common1 _) as [[body n]|]; simpl.
  - eexists. split; [| apply level_map_values].
    + lia.
    + apply sorted_desc_NoDup, candidate_styles_NoDup, count_styles_NoDup.
  - exists 0%nat. split; [lia | reflexivity].
Qed.

Lemma learned_levels_get doc k lvl :
  Dict.get k (learned_levels doc) = Some lvl -> lvl ∈ heading_levels.
Proof.
  intros H. apply dict_get_elem_of in H.
  destruct (learned_levels_values doc) as (n & _ & Hv).
  assert (Hin : lvl ∈ map snd (learned_levels doc)).
  { apply list_elem_of_fmap. now exists (k, lvl). }
  rewrite Hv in Hin. eapply subseteq_take; eassumption.
Qed.

(** ** The outline assembler *)

Section AssemblerFacts.
Variables (doc_title : str) (texts_to_ignore : gset str).
Variable style_to_level : list (style * str).

(** All the levels of the map are names of levels. *)
Hypothesis levels_ok :
  forall k lvl, Dict.get k style_to_level = Some lvl -> lvl ∈ heading_levels.

Lemma level_test lvl :
  lvl ∈ heading_levels ->
  negb (PyStr.is_empty lvl) && PyStr.in_list lvl [u "H1"; u "H2"; u "H3"] = true.
Proof.
  unfold heading_levels. rewrite !elem_of_cons, elem_of_nil.
  intros [-> | [-> | [-> | []]]]; reflexivity.
Qed.

Lemma skip_test (t : str) :
  PyStr.is_empty t || PyStr.eqb t doc_title || bool_decide (t ∈ texts_to_ignore)
  = negb (bool_decide (t <> [] /\ t <> doc_title /\ (t ∉ texts_to_ignore))).
Proof.
  unfold PyStr.eqb.
  destruct (PyStr.is_empty t) eqn:E1;
    [apply is_empty_true in E1
    | assert (t <> [])
        by (intros Ht; apply is_empty_true in Ht; congruence)];
  (destruct (bool_decide (t = doc_title)) eqn:E2;
    [apply bool_decide_eq_true in E2 | apply bool_decide_eq_false in E2]);
  (destruct (bool_decide (t ∈ texts_to_ignore)) eqn:E3;
    [apply bool_decide_eq_true in E3 | apply bool_decide_eq_false in E3]);
  cbn [orb]; symmetry;
  first [ apply negb_true_iff, bool_decide_eq_false; tauto
        | apply negb_false_iff, bool_decide_eq_true; tauto ].
Qed.

(** One block appends the entry of its first line, if it has one. *)
Lemma outline_block_spec page_num acc b :
  outline_block doc_title texts_to_ignore style_to_level page_num acc b
  = acc ++ option_list
             (first_line_entry doc_title texts_to_ignore style_to_level page_num b).
Proof.
  unfold outline_block, first_line_entry.
  destruct (first_line_spans b) as [[sp sps]|]; [| now rewrite app_nil_r].
  rewrite skip_test. unfold Dict.mem.
  destruct (Dict.get (style_of sp) style_to_level) as [lvl|] eqn:Hget.
  - rewrite (level_test lvl) by eauto.
    destruct (bool_decide _); simpl; [| now rewrite app_nil_r].
    destruct (is_valid_heading _); simpl; [reflexivity | now rewrite app_nil_r].
  - destruct (bool_decide _); simpl; now rewrite app_nil_r.
Qed.

Lemma outline_blocks_spec page_num acc bs :
  foldl (outline_block doc_title texts_to_ignore style_to_level page_num) acc bs
  = acc ++ omap (first_line_entry doc_title texts_to_ignore style_to_level page_num) bs.
Proof.
  revert acc. induction bs as [|b bs IH]; intros acc; simpl.
  - now rewrite app_nil_r.
  - rewrite IH, outline_block_spec, <- app_assoc. f_equal.
    now destruct (first_line_entry _ _ _ _ b).
Qed.

Lemma outline_pages_spec (g : nat -> nat) acc ps :
  foldl (outline_page doc_title texts_to_ignore style_to_level) acc
        (imap (fun i p => (g i, p)) ps)
  = acc ++ concat (imap (fun i p =>
                           omap (first_line_entry doc_title texts_to_ignore
                                                  style_to_level (g i))
                                (blocks p)) ps).
Proof.
  revert g acc. induction ps as [|p ps IH]; intros g acc; simpl.
  - now rewrite app_nil_r.
  - unfold outline_page at 2. simpl. rewrite outline_blocks_spec.
    rewrite (IH (g ∘ S)). now rewrite <- app_assoc.
Qed.

(** The loop of pass 3 computes the entries of the first lines. *)
Lemma assemble_outline_spec doc :
  assemble_outline doc doc_title texts_to_ignore style_to_level
  = outline_of_first_lines doc doc_title texts_to_ignore style_to_level.
Proof.
  unfold assemble_outline, outline_of_first_lines, enumerate.
  apply (outline_pages_spec (fun i => i) []).
Qed.

End AssemblerFacts.

Lemma elem_of_outline_of_first_lines doc doc_title texts_to_ignore style_to_level e :
  e ∈ outline_of_first_lines doc doc_title texts_to_ignore style_to_level <->
  exists i p b,
    doc !! i = Some p /\ b ∈ blocks p /\
    first_line_entry doc_title texts_to_ignore style_to_level i b = Some e.
Proof.
  unfold outline_of_first_lines.
  rewrite list_elem_of_In, in_concat. split.
  - intros (es & Hes & He).
    apply list_elem_of_In, elem_of_lookup_imap in Hes as (i & p & -> & Hp).
    apply list_elem_of_In, list_elem_of_omap in He as (b & Hb & Hbe).
    now exists i, p, b.
  - intros (i & p & b & Hp & Hb & Hbe).
    eexists. split.
    + apply list_elem_of_In, elem_of_lookup_imap. exists i, p. split; [reflexivity | exact Hp].
    + apply list_elem_of_In, list_elem_of_omap. now exists b.
Qed.

Lemma first_line_entry_inv doc_title texts_to_ignore style_to_level i b e :
  first_line_entry doc_title texts_to_ignore style_to_level i b = Some e ->
  exists sp sps,
    first_line_spans b = Some (sp, sps) /\
    text e = line_text_of sps /\ page_no e = (i + 1)%nat /\
    Dict.get (style_of sp) style_to_level = Some (level e) /\
    text e <> [] /\ text e <> doc_title /\ (text e ∉ texts_to_ignore) /\
    is_valid_heading (text e) = true.
Proof.
  unfold first_line_entry.
  destruct (first_line_spans b) as [[sp sps]|]; [| discriminate].
  destruct (Dict.get _ _) as [lvl|] eqn:Hget; [| discriminate].
  destruct (bool_decide _) eqn:Hd; [| discriminate].
  destruct (is_valid_heading _) eqn:Hv; [| discriminate].
  intros [= <-]. apply bool_decide_eq_true in Hd as (? & ? & ?).
  exists sp, sps. simpl. repeat split; auto.
Qed.

(** The outline of an opened document. *)
Lemma process_document_outline doc :
  outline (process_document doc)
  = outline_of_first_lines doc (fst (analyze_first_page doc))
      (snd (analyze_first_page doc)) (learned_levels doc).
Proof.
  unfold process_document, learned_levels, start_page_for_styles.
  destruct (analyze_first_page doc) as [t ig]. simpl.
  pose proof (learned_levels_get doc) as Hl.
  unfold learned_levels, start_page_for_styles in Hl.
  destruct (get_style_hierarchy doc _) as [stl body]. simpl in *.
  rewrite <- (assemble_outline_spec t ig stl Hl).
  destruct stl; [| reflexivity].
  simpl. symmetry. rewrite (assemble_outline_spec t ig [] Hl).
  apply elem_of_nil_inv. intros e He.
  apply elem_of_outline_of_first_lines in He as (i & p & b & _ & _ & He).
  apply first_line_entry_inv in He as (sp & sps & _ & _ & _ & Hget & _).
  discriminate.
Qed.

Lemma process_document_title doc :
  title (process_document doc) = fst (analyze_first_page doc).
Proof.
  unfold process_document. destruct (analyze_first_page doc) as [t ig].
  destruct (get_style_hierarchy doc _) as [[|] body]; reflexivity.
Qed.

End DocumentFacts.

(** ** The batch *)

Section BatchFacts.
Context {T : UnicodeTables}.
Variable fitz_open : str -> opened.
Variables input_dir output_dir : str.

(** A run changes the files at the output paths of its PDF entries only,
    however it ends. *)
Lemma process_all_pdfs_frame (listing : list str) (files : gmap str result) p :
  (forall f, f ∈ listing -> is_pdf_name f = true ->
             output_path_of output_dir f <> p) ->
  fst (process_all_pdfs fitz_open input_dir output_dir listing files) !! p
  = files !! p.
Proof.
  revert files. induction listing as [|f fs IH]; intros files Hp; [reflexivity |].
  cbn [process_all_pdfs].
  assert (Hfs : forall g, g ∈ fs -> is_pdf_name g = true ->
                          output_path_of output_dir g <> p).
  { intros g Hg. apply Hp. now apply list_elem_of_further. }
  destruct (is_pdf_name f) eqn:Hf; [| now apply IH].
  destruct (process_pdf_document fitz_open (Path.join input_dir f)) as [r|];
    [| reflexivity].
  rewrite IH by exact Hfs. apply lookup_insert_ne.
  apply Hp; [apply list_elem_of_here | exact Hf].
Qed.

Lemma all_return_cons (f : str) (fs : list str) :
  all_return fitz_open input_dir (f :: fs) ->
  (is_pdf_name f = true ->
   process_pdf_document fitz_open (Path.join input_dir f) <> Raised)
  /\ all_return fitz_open input_dir fs.
Proof.
  intros H. split.
  - apply H, list_elem_of_here.
  - intros g Hg. apply H. now apply list_elem_of_further.
Qed.



Lemma all_return_app (l1 l2 : list str) :
  all_return fitz_open input_dir (l1 ++ l2) <->
  all_return fitz_open input_dir l1 /\ all_return fitz_open input_dir l2.
Proof.
  unfold all_return. split.
  - intros H. split; intros f Hf; apply H; apply elem_of_app; auto.
  - intros [H1 H2] f Hf. apply elem_of_app in Hf as [Hf | Hf]; auto.
Qed.

(** The entries that return hand the files over to the rest of the
    listing. *)
Lemma process_all_pdfs_app (l1 l2 : list str) (files : gmap str result) :
  all_return fitz_open input_dir l1 ->
  process_all_pdfs fitz_open input_dir output_dir (l1 ++ l2) files
  = process_all_pdfs fitz_open input_dir output_dir l2
      (fst (process_all_pdfs fitz_open input_dir output_dir l1 files)).
Proof.
  revert files. induction l1 as [|f fs IH]; intros files Hall; [reflexivity |].
  apply all_return_cons in Hall as [Hf Hfs].
  cbn [app process_all_pdfs].
  destruct (is_pdf_name f) eqn:Hpdf; [| now apply IH].
  destruct (process_pdf_document fitz_open (Path.join input_dir f)) as [r|];
    [now apply IH | now specialize (Hf eq_refl)].
Qed.

End BatchFacts.

Lemma write_files_other (ws : list (str * result)) (files : gmap str result) p :
  p ∉ map fst ws -> foldl write_file files ws !! p = files !! p.
Proof.
  revert files. induction ws as [|[q r] ws IH]; intros files Hp; [reflexivity |].
  simpl in Hp. apply not_elem_of_cons in Hp as [Hne Hp].
  cbn [foldl]. rewrite IH by exact Hp.
  unfold write_file. simpl. now rewrite lookup_insert_ne.
Qed.


Lemma first_line_spans_spec b sp sps :
  first_line_spans b = Some (sp, sps) <->
  exists l ls, lines b = Some (l :: ls) /\ spans l = sps /\ head sps = Some sp.
Proof.
  unfold first_line_spans. split.
  - destruct (lines b) as [[|l ls]|]; try discriminate.
    destruct (spans l) as [|sp' rest] eqn:Hs; [discriminate |].
    intros [= <- <-]. exists l, ls. now rewrite Hs.
  - intros (l & ls & -> & <- & Hh).
    destruct (spans l); [discriminate |]. now injection Hh as ->.
Qed.

(** * The outline of a document *)

Section OutlineFacts.
Context {T : UnicodeTables}.

(** In [Samples.heading_inside_block] the line "Heading" of page 2 has the
    style of level H1, a valid text that is neither the title nor ignored,
    and no entry: it is the second line of its block.  The sample is ASCII,
    so this holds whatever the tables are. *)
Lemma heading_line_has_no_entry : ~ every_line_emitted Samples.heading_inside_block.
Proof.
  intros H.
  specialize (H 1%nat
                (Page [Block (Some [Line [Samples.run "lead paragraph" 10];
                                    Line [Samples.run "Heading" 16]]);
                       Block (Some [Line [Samples.run "more text" 10];
                                    Line [Samples.run "and more" 10]])] [])
                (Block (Some [Line [Samples.run "lead paragraph" 10];
                              Line [Samples.run "Heading" 16]]))
                [Line [Samples.run "lead paragraph" 10];
                 Line [Samples.run "Heading" 16]]
                (Line [Samples.run "Heading" 16])
                (Samples.run "Heading" 16)).
  simpl in H.
  assert (Hin : Entry (u "H1") (u "Heading") 2
                ∈ outline (process_document Samples.heading_inside_block)).
  { apply H.
    - reflexivity.
    - apply list_elem_of_here.
    - reflexivity.
    - apply list_elem_of_further, list_elem_of_here.
    - reflexivity.
    - discriminate.
    - vm_compute. discriminate.
    - apply (bool_decide_unpack _). vm_compute. exact I.
    - reflexivity.
    - reflexivity. }
  vm_compute in Hin. now apply elem_of_nil in Hin.
Qed.

(** C1, as the code has it: the assembler looks at the first line of every
    block of every page, in document order, and emits an entry (level, text,
    page) exactly for the first lines with a span whose text is not empty,
    is not the title and is not in the ignore set, whose style is a key of
    the level map and whose text passes [is_valid_heading]. *)
Theorem outline_from_first_lines (doc : document) :
  let r := process_document doc in
  let ignored := snd (analyze_first_page doc) in
  outline r = outline_of_first_lines doc (title r) ignored (learned_levels doc)
  /\ forall e,
       e ∈ outline r <->
       exists i p b l ls sp,
         doc !! i = Some p /\ b ∈ blocks p /\
         lines b = Some (l :: ls) /\ head (spans l) = Some sp /\
         Dict.get (style_of sp) (learned_levels doc) = Some (level e) /\
         text e = line_text_of (spans l) /\ page_no e = (i + 1)%nat /\
         text e <> [] /\ text e <> title r /\ (text e ∉ ignored) /\
         is_valid_heading (text e) = true.
Proof.
  cbv zeta. rewrite process_document_title, process_document_outline.
  split; [reflexivity |]. intros e.
  rewrite elem_of_outline_of_first_lines. split.
  - intros (i & p & b & Hp & Hb & He).
    apply first_line_entry_inv in He
      as (sp & sps & Hf & Ht & Hpg & Hget & Hne & Hnt & Hni & Hv).
    apply first_line_spans_spec in Hf as (l & ls & Hl & <- & Hh).
    exists i, p, b, l, ls, sp. repeat split; assumption.
  - intros (i & p & b & l & ls & sp & Hp & Hb & Hl & Hh & Hget & Ht & Hpg
            & Hne & Hnt & Hni & Hv).
    exists i, p, b. repeat split; try assumption.
    unfold first_line_entry.
    assert (Hf : first_line_spans b = Some (sp, spans l))
      by (apply first_line_spans_spec; now exists l, ls).
    rewrite Hf, Hget, <- Ht, Hv.
    rewrite bool_decide_eq_true_2 by (repeat split; assumption).
    simpl. destruct e as [lv tx pg]. simpl in *. now subst.
Qed.

(** C2, failing input: the title of [Samples.two_line_title] is joined from
    the lines "Annual" and "Report"; neither equals "Annual Report", so both
    are emitted as headings of page 1. *)
Theorem title_fragments_emitted :
  process_document Samples.two_line_title
  = Result (u "Annual Report")
      [Entry (u "H1") (u "Annual") 1; Entry (u "H1") (u "Report") 1;
       Entry (u "H1") (u "Introduction") 2].
Proof. vm_compute. reflexivity. Qed.

(** C3, failing input: [Samples.single_page] has no page beyond the first,
    so no such page has a text run; its title is joined from the lines
    "Annual" and "Report", and these two lines are its outline. *)
Theorem single_page_fragments_emitted :
  body_pages_empty Samples.single_page
  /\ process_document Samples.single_page
     = Result (u "Annual Report")
         [Entry (u "H1") (u "Annual") 1; Entry (u "H1") (u "Report") 1].
Proof.
  split; [| vm_compute; reflexivity].
  intros p Hp. simpl in Hp. now apply elem_of_nil in Hp.
Qed.

(** A document of several pages whose pages beyond the first contain no
    text run has an empty outline, whatever its first page contains, and its
    title is the one that [analyze_first_page] extracts. *)
Lemma empty_body_short_circuit (doc : document) :
  length doc <> 1%nat -> body_pages_empty doc ->
  process_document doc = Result (fst (analyze_first_page doc)) [].
Proof.
  intros Hlen Hbody. unfold process_document.
  destruct (analyze_first_page doc) as [t ig]. simpl.
  assert (Hc : count_styles doc (if (1 <? length doc)%nat then 1 else 0)%nat = []).
  { unfold count_styles. destruct doc as [|p [|q ps]].
    - reflexivity.
    - simpl in Hlen. congruence.
    - change (1 <? length (p :: q :: ps))%nat with true. cbv iota.
      apply count_pages_no_run. exact Hbody. }
  unfold get_style_hierarchy. rewrite Hc. reflexivity.
Qed.

Lemma outline_not_title (doc : document) :
  Forall (fun e => text e <> title (process_document doc))
         (outline (process_document doc)).
Proof.
  rewrite process_document_title, process_document_outline.
  apply Forall_forall. intros e He.
  apply elem_of_outline_of_first_lines in He as (i & p & b & _ & _ & He).
  apply first_line_entry_inv in He as (sp & sps & _ & _ & _ & _ & _ & Hnt & _).
  exact Hnt.
Qed.

(** C7: no entry of the outline of a returned result has the title of that
    result as its text, whether the document opened or not. *)
Theorem title_not_in_outline (fitz_open : str -> opened) (pdf_path : str)
    (r : result) :
  process_pdf_document fitz_open pdf_path = Returned r ->
  Forall (fun e => text e <> title r) (outline r).
Proof.
  unfold process_pdf_document.
  destruct (fitz_open pdf_path) as [| |doc]; intros [= <-].
  - constructor.
  - apply outline_not_title.
Qed.

(** * The level map *)

Lemma heading_levels_NoDup : NoDup heading_levels.
Proof. apply (bool_decide_unpack _). vm_compute. exact I. Qed.

Lemma outline_levels doc :
  Forall (fun e => level e ∈ heading_levels) (outline (process_document doc)).
Proof.
  rewrite process_document_outline. apply Forall_forall. intros e He.
  apply elem_of_outline_of_first_lines in He as (i & p & b & _ & _ & He).
  apply first_line_entry_inv in He as (sp & sps & _ & _ & _ & Hget & _).
  eapply learned_levels_get. exact Hget.
Qed.

(** C4: for a non-empty frequency table (its keys are distinct, as those of
    a [Counter] are), the keys of the level map are the first three of the
    candidate styles sorted by descending size, stably, paired in that order
    with H1, H2, H3; so at most three distinct styles have a level, and
    every level of every outline is H1, H2 or H3. *)
Theorem heading_map_top_three (style_counts : list (style * nat)) :
  style_counts <> [] -> NoDup (Dict.keys style_counts) ->
  top_three_levels style_counts
  /\ (length (fst (hierarchy_of_counts style_counts)) <= 3)%nat
  /\ NoDup (Dict.keys (fst (hierarchy_of_counts style_counts)))
  /\ forall fitz_open pdf_path r,
       process_pdf_document fitz_open pdf_path = Returned r ->
       Forall (fun e => level e ∈ heading_levels) (outline r).
Proof.
  intros Hne Hnd.
  destruct (most_common1_nonempty style_counts Hne) as (body & n & Hm).
  pose proof (candidate_styles_NoDup style_counts body Hnd) as Hc.
  pose proof (sorted_desc_NoDup _ Hc) as Hs.
  assert (Hmap : fst (hierarchy_of_counts style_counts)
                 = level_map (heading_styles_of style_counts body))
    by (unfold hierarchy_of_counts; now rewrite Hm).
  split; [| split; [| split]].
  - exists body, n, (heading_styles_of style_counts body).
    split; [exact Hm |]. split; [apply candidate_styles_spec |].
    split; [apply sorted_desc_perm |]. split; [apply sorted_desc_sorted |].
    split; [intros z; apply sorted_desc_stable |].
    rewrite Hmap. now apply level_map_zip.
  - rewrite Hmap, <- (length_map fst).
    fold (Dict.keys (level_map (heading_styles_of style_counts body))).
    rewrite level_map_keys by exact Hs. rewrite length_take. lia.
  - rewrite Hmap, level_map_keys by exact Hs.
    eapply sublist_NoDup; [exact Hs | apply sublist_take].
  - intros fitz_open pdf_path r. unfold process_pdf_document.
    destruct (fitz_open pdf_path) as [| |doc]; intros [= <-];
      [constructor | apply outline_levels].
Qed.

(** C9: the levels of the map are H1, ..., Hk in this order, with k the
    smaller of 3 and the number of candidate styles: no gap, no repeat, and
    H3 only together with H1 and H2. *)
Theorem levels_consecutive (doc : document) (start_page : nat) :
  let style_counts := count_styles doc start_page in
  let levels := map snd (fst (get_style_hierarchy doc start_page)) in
  levels = take (min 3 (length (candidates_of style_counts))) heading_levels
  /\ NoDup levels
  /\ (u "H3" ∈ levels -> u "H1" ∈ levels /\ u "H2" ∈ levels)
  /\ (u "H2" ∈ levels -> u "H1" ∈ levels).
Proof.
  cbv zeta. unfold get_style_hierarchy, hierarchy_of_counts, candidates_of.
  pose proof (count_styles_NoDup doc start_page) as Hnd.
  assert (Hk : forall k, (k <= 3)%nat ->
            NoDup (take k heading_levels)
            /\ (u "H3" ∈ take k heading_levels ->
                u "H1" ∈ take k heading_levels /\ u "H2" ∈ take k heading_levels)
            /\ (u "H2" ∈ take k heading_levels -> u "H1" ∈ take k heading_levels)).
  { intros k Hk. split.
    - eapply sublist_NoDup; [apply heading_levels_NoDup | apply sublist_take].
    - unfold heading_levels.
      destruct k as [|[|[|[|k]]]]; try lia; cbn [take];
        rewrite ?elem_of_cons, ?elem_of_nil; split; intros H;
        repeat match goal with
               | H : _ \/ _ |- _ => destruct H
               | H : False |- _ => destruct H
               end; try discriminate; auto. }
  destruct (Dict.most_common1 _) as [[body n]|]; simpl.
  - unfold heading_styles_of.
    rewrite level_map_values
      by now apply sorted_desc_NoDup, candidate_styles_NoDup.
    rewrite (Permutation_length (sorted_desc_perm _)).
    split; [reflexivity |]. apply Hk. lia.
  - split; [reflexivity |]. apply (Hk 0%nat). lia.
Qed.

End OutlineFacts.

(** C1, counterexample: the line "Heading" of page 2 of
    [Samples.heading_inside_block] qualifies and has no entry (for any
    tables: [heading_line_has_no_entry]). *)
Lemma every_line_emitted_fails : ~ every_line_emitted Samples.heading_inside_block.
Proof. exact heading_line_has_no_entry. Qed.

Lemma title_not_in_outline_witness :
  process_pdf_document Samples.sample_open (u "./input/good.pdf")
  = Returned (process_document Samples.two_line_title)
  /\ Forall (fun e => text e <> u "Annual Report")
            (outline (process_document Samples.two_line_title)).
Proof.
  split; [reflexivity |].
  exact (title_not_in_outline Samples.sample_open (u "./input/good.pdf")
           (process_document Samples.two_line_title) eq_refl).
Defined.

Lemma heading_map_top_three_witness :
  Samples.table <> [] /\ NoDup (Dict.keys Samples.table) /\
  top_three_levels Samples.table /\
  fst (hierarchy_of_counts Samples.table)
  = [ ((24, false), u "H1"); ((16, false), u "H2"); ((16, true), u "H3") ]%Z.
Proof.
  assert (Hne : Samples.table <> []) by discriminate.
  assert (Hnd : NoDup (Dict.keys Samples.table))
    by (apply (bool_decide_unpack _); vm_compute; exact I).
  split; [exact Hne |]. split; [exact Hnd |].
  split; [exact (proj1 (heading_map_top_three Samples.table Hne Hnd)) |].
  reflexivity.
Defined.

(** * The heading validator *)

Section ValidatorFacts.
Context {T : UnicodeTables}.

(** C5, as the code has it: [is_valid_heading] returns false exactly when
    the text is empty or white space only, or when the text without its
    leading and trailing white space is a run of digits and dots or S.No in
    any case, or ends in a period and has more than four words, or is one of
    the five labels in any case; otherwise it returns true. *)
Theorem is_valid_heading_rules (t : str) :
  (is_valid_heading t = false <-> Rules.rejected_stripped t)
  /\ (is_valid_heading t = true <-> ~ Rules.rejected_stripped t).
Proof.
  pose proof (is_valid_heading_rejected t) as H.
  split; [exact H |].
  rewrite <- H. destruct (is_valid_heading t); split; congruence.
Qed.

(** The rules beyond ASCII: white space is the white space of Unicode, a
    digit is any decimal digit of the table, and the letters of S.No match
    what the case folding of the table lets them match. *)
Lemma em_space_padded_label : is_valid_heading (8195%N :: u "Name") = false.
Proof. vm_compute. reflexivity. Qed.

Lemma arabic_indic_marker :
  uni_decimal 1633%N = true -> is_valid_heading [1633%N; PyStr.dot] = false.
Proof.
  intros H. apply is_valid_heading_rejected. right. left. left.
  split; [discriminate |].
  change (PyStr.strip [1633%N; PyStr.dot]) with [1633%N; PyStr.dot].
  apply Forall_cons. split; [| apply Forall_cons; split; [now right | constructor]].
  left. unfold PyStr.is_decimal.
  change (PyStr.is_ascii 1633%N) with false. exact H.
Qed.

Lemma long_s_token :
  uni_ignorecase (ch "S") 383%N = true ->
  is_valid_heading (383%N :: u ".No") = false.
Proof.
  intros H. apply is_valid_heading_rejected. right. left. right.
  change (PyStr.strip (383%N :: u ".No")) with (383%N :: u ".No").
  apply Forall2_cons. split; [| repeat constructor].
  unfold Re.lit_matches, Re.same_ignoring_case.
  change (true && Re.is_cased (ch "S")) with true.
  change (PyStr.is_ascii (ch "S") && PyStr.is_ascii 383%N) with false.
  exact H.
Qed.

Lemma lstrip_head (s : str) (c : char) :
  head (PyStr.lstrip s) = Some c -> PyStr.isspace c = false.
Proof.
  destruct (lstrip_cases s) as [-> | (a & r & -> & Ha)]; [discriminate |].
  now intros [= <-].
Qed.

Lemma rstrip_head (s : str) (c : char) :
  head (PyStr.rstrip s) = Some c -> head s = Some c.
Proof.
  destruct s as [|a s]; [discriminate |]. simpl.
  destruct (PyStr.rstrip s); [destruct (PyStr.isspace a) |]; now intros [= <-].
Qed.

Lemma rstrip_last (s : str) (c : char) :
  last (PyStr.rstrip s) = Some c -> PyStr.isspace c = false.
Proof.
  induction s as [|a s IH]; [discriminate |]. simpl.
  destruct (PyStr.rstrip s) as [|b r] eqn:Hr.
  - destruct (PyStr.isspace a) eqn:Ha; [discriminate |]. now intros [= <-].
  - intros H. apply IH. exact H.
Qed.

(** The stripped text neither begins nor ends with white space. *)
Lemma strip_ends (s : str) (c : char) :
  head (PyStr.strip s) = Some c \/ last (PyStr.strip s) = Some c ->
  PyStr.isspace c = false.
Proof.
  unfold PyStr.strip. intros [H | H].
  - eapply lstrip_head, rstrip_head, H.
  - eapply rstrip_last, H.
Qed.

Lemma is_valid_heading_of_strip (t : str) :
  is_valid_heading t = is_valid_heading (PyStr.strip t).
Proof. unfold is_valid_heading. now rewrite strip_idempotent. Qed.

(** C10: the verdict of the validator on a text is its verdict on the
    stripped text, where stripping removes exactly the white space in front
    of the text and behind it: the text is its stripped text between two
    runs of white space, the stripped text neither begins nor ends with
    white space, and white space added in front of a text or behind it
    changes neither the stripped text nor the verdict. *)
Theorem is_valid_heading_strip (t w1 w2 : str) :
  Rules.whitespace_only w1 -> Rules.whitespace_only w2 ->
  is_valid_heading t = is_valid_heading (PyStr.strip t)
  /\ (exists l r, t = l ++ PyStr.strip t ++ r
                  /\ Rules.whitespace_only l /\ Rules.whitespace_only r)
  /\ (forall c, head (PyStr.strip t) = Some c \/ last (PyStr.strip t) = Some c ->
                PyStr.isspace c = false)
  /\ PyStr.strip (w1 ++ t ++ w2) = PyStr.strip t
  /\ is_valid_heading (w1 ++ t ++ w2) = is_valid_heading t.
Proof.
  intros H1 H2.
  split; [apply is_valid_heading_of_strip |].
  split; [apply strip_decompose |].
  split; [apply strip_ends |].
  split; [now apply strip_padding |].
  rewrite (is_valid_heading_of_strip (w1 ++ t ++ w2)), (is_valid_heading_of_strip t).
  now rewrite strip_padding.
Qed.

End ValidatorFacts.

(** C5, counterexample: the validator rejects " Name ", a text that none of
    the four rules matches when they are read on the text as it is given
    (for any tables: [padded_label_any_tables]). *)
Lemma padded_label_rejected :
  ~ (is_valid_heading (u " Name ") = false <-> Rules.rejected (u " Name ")).
Proof. exact padded_label_any_tables. Qed.

Lemma is_valid_heading_strip_witness :
  Rules.whitespace_only (u "  ") /\ Rules.whitespace_only [PyStr.space; 8195%N] /\
  is_valid_heading (u "  " ++ u "Name" ++ [PyStr.space; 8195%N])
  = is_valid_heading (u "Name") /\
  is_valid_heading (u "Name") = false.
Proof.
  assert (H1 : Rules.whitespace_only (u "  ")) by (repeat constructor).
  assert (H2 : Rules.whitespace_only [PyStr.space; 8195%N]) by (repeat constructor).
  split; [exact H1 |]. split; [exact H2 |].
  split; [| reflexivity].
  exact (proj2 (proj2 (proj2 (proj2
           (is_valid_heading_strip (u "Name") (u "  ") [PyStr.space; 8195%N] H1 H2))))).
Defined.

(** * One document and the batch *)

Section RunFacts.
Context {T : UnicodeTables}.

(** A file that cannot be opened has the error result. *)
Lemma open_failure_result (fitz_open : str -> opened) (pdf_path : str) :
  fitz_open pdf_path = OpenRaises ->
  process_pdf_document fitz_open pdf_path
  = Returned (Result (u "Error processing " ++ Path.basename pdf_path) []).
Proof. intros H. unfold process_pdf_document. now rewrite H. Qed.

(** A file that opens and cannot be read ends the loop: the files written
    before it stay, and no later entry of the listing is processed. *)
Lemma read_failure_aborts (fitz_open : str -> opened)
    (input_dir output_dir : str) (before after : list str) (filename : str)
    (files : gmap str result) :
  all_return fitz_open input_dir before ->
  is_pdf_name filename = true ->
  fitz_open (Path.join input_dir filename) = ReadRaises ->
  process_all_pdfs fitz_open input_dir output_dir
    (before ++ filename :: after) files
  = (fst (process_all_pdfs fitz_open input_dir output_dir before files), Aborted).
Proof.
  intros Hall Hpdf Hopen. rewrite process_all_pdfs_app by exact Hall.
  cbn [process_all_pdfs]. rewrite Hpdf. unfold process_pdf_document.
  now rewrite Hopen.
Qed.

(** C6, failing input: the directory has [locked.pdf], which opens and
    whose pages cannot be read, and [good.pdf].  The exception of
    [locked.pdf] is not caught: it has no result and no file, and when it is
    listed first [good.pdf] has no file either. *)
Theorem unreadable_document_aborts_batch :
  process_pdf_document Samples.locked_open (u "./input/locked.pdf") = Raised
  /\ process_all_pdfs Samples.locked_open (u "./input") (u "./output")
       [u "locked.pdf"; u "good.pdf"] ∅
     = (∅, Aborted)
  /\ process_all_pdfs Samples.locked_open (u "./input") (u "./output")
       [u "good.pdf"; u "locked.pdf"] ∅
     = ({[ u "./output/good.json" := process_document Samples.two_line_title ]},
        Aborted).
Proof. repeat split; vm_compute; reflexivity. Qed.

(** Two names that differ in the case of the extension share one output
    file. *)
Lemma output_path_shared :
  output_path_of (u "./output") (u "a.pdf")
  = output_path_of (u "./output") (u "a.PDF")
  /\ is_pdf_name (u "a.pdf") = true /\ is_pdf_name (u "a.PDF") = true.
Proof. repeat split; vm_compute; reflexivity. Qed.

(** ** The layout of the ignore set *)

Lemma elem_of_add (place : str -> list str -> nat) (x y : str) (s : list str) :
  y ∈ Laid.add place x s <-> y = x \/ y ∈ s.
Proof.
  unfold Laid.add. destruct (bool_decide (x ∈ s)) eqn:Hx.
  - apply bool_decide_eq_true in Hx. split; [now right |].
    intros [-> | H]; assumption.
  - rewrite elem_of_app, elem_of_cons.
    rewrite <- (take_drop (place x s) s) at 5.
    rewrite elem_of_app. tauto.
Qed.

Lemma title_step_lays_out (place : str -> list str -> nat) (m : Z) (tl : list str) (l : list str)
    (g : gset str) (b : block) :
  Laid.lays_out l g ->
  fst (Laid.title_step place m (tl, l) b) = fst (title_step m (tl, g) b)
  /\ Laid.lays_out (snd (Laid.title_step place m (tl, l) b))
                   (snd (title_step m (tl, g) b)).
Proof.
  intros H. unfold Laid.title_step, title_step.
  destruct (first_line_spans b) as [[sp sps]|]; [| now split].
  destruct (py_round (span_size sp) =? m)%Z; [now split |].
  split; [reflexivity |]. simpl. intros y.
  rewrite elem_of_add, elem_of_union, elem_of_singleton, (H y). reflexivity.
Qed.

Lemma title_fold_lays_out (place : str -> list str -> nat) (m : Z) (bs : list block) (tl : list str)
    (l : list str) (g : gset str) :
  Laid.lays_out l g ->
  fst (foldl (Laid.title_step place m) (tl, l) bs)
  = fst (foldl (title_step m) (tl, g) bs)
  /\ Laid.lays_out (snd (foldl (Laid.title_step place m) (tl, l) bs))
                   (snd (foldl (title_step m) (tl, g) bs)).
Proof.
  revert tl l g. induction bs as [|b bs IH]; intros tl l g H; [now split |].
  cbn [foldl].
  destruct (title_step_lays_out place m tl l g b H) as [H1 H2].
  destruct (Laid.title_step place m (tl, l) b) as [tl1 l1].
  destruct (title_step m (tl, g) b) as [tl2 g2].
  simpl in H1, H2. subst tl2. now apply IH.
Qed.

Lemma lays_out_empty : Laid.lays_out [] ∅.
Proof. intros y. rewrite elem_of_nil, elem_of_empty. reflexivity. Qed.

Lemma analyze_first_page_lays_out (place : str -> list str -> nat) (doc : document) :
  fst (Laid.analyze_first_page place doc) = fst (analyze_first_page doc)
  /\ Laid.lays_out (snd (Laid.analyze_first_page place doc))
                   (snd (analyze_first_page doc)).
Proof.
  unfold Laid.analyze_first_page, analyze_first_page.
  destruct doc as [|p ps]; [split; [reflexivity | apply lays_out_empty] |].
  destruct (blocks p) as [|b bs]; [split; [reflexivity | apply lays_out_empty] |].
  destruct (foldl max_size_step 0%Z (b :: bs) =? 0)%Z.
  - destruct (text_blocks p); split; try reflexivity; apply lays_out_empty.
  - destruct (title_fold_lays_out place (foldl max_size_step 0%Z (b :: bs))
                (b :: bs) [] [] ∅ lays_out_empty) as [H1 H2].
    destruct (foldl (Laid.title_step place _) _ _) as [tl1 l1].
    destruct (foldl (title_step _) _ _) as [tl2 g2].
    simpl in H1, H2. subst tl2. split; [reflexivity | exact H2].
Qed.

Lemma outline_block_lays_out (l : list str) (g : gset str) doc_title
    style_to_level page_num acc (b : block) :
  Laid.lays_out l g ->
  Laid.outline_block doc_title l style_to_level page_num acc b
  = outline_block doc_title g style_to_level page_num acc b.
Proof.
  intros H. unfold Laid.outline_block, outline_block.
  destruct (first_line_spans b) as [[sp sps]|]; [| reflexivity].
  now rewrite (bool_decide_ext _ _ (H (line_text_of sps))).
Qed.

Lemma assemble_outline_lays_out (l : list str) (g : gset str) doc doc_title
    style_to_level :
  Laid.lays_out l g ->
  Laid.assemble_outline doc doc_title l style_to_level
  = assemble_outline doc doc_title g style_to_level.
Proof.
  intros H. unfold Laid.assemble_outline, assemble_outline.
  generalize (@nil outline_entry) as acc.
  induction (enumerate doc) as [|ip ips IH]; intros acc; [reflexivity |].
  cbn [foldl]. rewrite <- IH. f_equal. unfold outline_page.
  revert acc. induction (blocks (snd ip)) as [|b bs IHb]; intros acc;
    [reflexivity |].
  cbn [foldl]. rewrite (outline_block_lays_out l g) by exact H. apply IHb.
Qed.

(** The result does not depend on the layout. *)
Lemma process_document_laid (place : str -> list str -> nat) (doc : document) :
  Laid.process_document place doc = process_document doc.
Proof.
  unfold Laid.process_document, process_document.
  destruct (analyze_first_page_lays_out place doc) as [H1 H2].
  destruct (Laid.analyze_first_page place doc) as [t1 l].
  destruct (analyze_first_page doc) as [t2 g].
  simpl in H1, H2. subst t2.
  destruct (get_style_hierarchy doc _) as [[|sl stl] body]; [reflexivity |].
  f_equal. now apply assemble_outline_lays_out.
Qed.

(** C8: two runs on the same extracted data return the same result, the
    same title and the same outline, whatever the path, whatever else the
    two runs could open, and however the hash table of each run lays out the
    ignore set, the one collection of the program whose order depends on the
    run; [Counter] and [dict] iterate in insertion order. *)
Theorem process_pdf_document_deterministic
    (place1 place2 : str -> list str -> nat)
    (open1 open2 : str -> opened) (path1 path2 : str) (doc : document) :
  open1 path1 = Opened doc -> open2 path2 = Opened doc ->
  exists r,
    Laid.process_pdf_document place1 open1 path1 = Returned r
    /\ Laid.process_pdf_document place2 open2 path2 = Returned r
    /\ process_pdf_document open1 path1 = Returned r.
Proof.
  intros H1 H2. exists (process_document doc).
  unfold Laid.process_pdf_document, process_pdf_document.
  rewrite H1, H2, !process_document_laid. auto.
Qed.

End RunFacts.

Lemma process_pdf_document_deterministic_witness :
  snd (Laid.analyze_first_page Samples.place_first Samples.single_page)
  = [u "third"; u "second"; u "first"] /\
  snd (Laid.analyze_first_page Samples.place_last Samples.single_page)
  = [u "first"; u "second"; u "third"] /\
  exists r,
    Laid.process_pdf_document Samples.place_first
      (fun _ => Opened Samples.single_page) (u "./input/one.pdf") = Returned r
    /\ Laid.process_pdf_document Samples.place_last
         (fun _ => Opened Samples.single_page) (u "elsewhere.pdf") = Returned r
    /\ process_pdf_document
         (fun _ => Opened Samples.single_page) (u "./input/one.pdf") = Returned r.
Proof.
  split; [reflexivity |]. split; [reflexivity |].
  exact (process_pdf_document_deterministic
           Samples.place_first Samples.place_last
           (fun _ => Opened Samples.single_page)
           (fun _ => Opened Samples.single_page)
           (u "./input/one.pdf") (u "elsewhere.pdf") Samples.single_page
           eq_refl eq_refl).
Defined.

Section FurtherFacts.
Context {T : UnicodeTables}.

(** * Further properties of the outline *)

Lemma outline_entry_page (doc : document) (e : outline_entry) :
  e ∈ outline (process_document doc) ->
  (1 <= page_no e <= length doc)%nat /\ PyStr.strip (text e) = text e.
Proof.
  rewrite process_document_outline. intros He.
  apply elem_of_outline_of_first_lines in He as (i & p & b & Hp & _ & He).
  apply first_line_entry_inv in He as (sp & sps & _ & Ht & Hpg & _).
  apply lookup_lt_Some in Hp. split; [lia |].
  rewrite Ht. unfold line_text_of. apply strip_idempotent.
Qed.

(** X1: every entry of an outline has a page between 1 and the number of
    pages of the document, and a text without leading or trailing white
    space. *)
Theorem outline_entries_well_formed (doc : document) (e : outline_entry) :
  e ∈ outline (process_document doc) ->
  (1 <= page_no e <= length doc)%nat /\ PyStr.strip (text e) = text e.
Proof. exact (outline_entry_page doc e). Qed.

Lemma first_lines_pages_sorted doc_title texts_to_ignore style_to_level
    (g : nat -> nat) (ps : list page) :
  (forall i j, (i <= j)%nat -> (g i <= g j)%nat) ->
  let es := concat (imap (fun i p =>
                            omap (first_line_entry doc_title texts_to_ignore
                                                   style_to_level (g i))
                                 (blocks p)) ps) in
  StronglySorted le (map page_no es)
  /\ Forall (fun e => (g 0 + 1 <= page_no e)%nat) es.
Proof.
  cbv zeta. revert g. induction ps as [|p ps IH]; intros g Hg.
  - simpl. split; constructor.
  - rewrite imap_cons. cbn [concat].
    destruct (IH (g ∘ S)) as [IHs IHf].
    { intros i j Hij. unfold compose. apply Hg. lia. }
    assert (Hhd : Forall (fun e => page_no e = (g 0 + 1)%nat)
                    (omap (first_line_entry doc_title texts_to_ignore
                                            style_to_level (g 0)) (blocks p))).
    { apply Forall_forall. intros e He.
      apply list_elem_of_omap in He as (b & _ & He).
      apply first_line_entry_inv in He as (sp & sps & _ & _ & Hpg & _).
      exact Hpg. }
    assert (Htl : Forall (fun e => (g 0 + 1 <= page_no e)%nat)
                    (concat (imap ((fun i p0 =>
                       omap (first_line_entry doc_title texts_to_ignore
                                              style_to_level (g i))
                            (blocks p0)) ∘ S) ps))).
    { eapply Forall_impl; [exact IHf |]. unfold compose. simpl.
      intros e He. specialize (Hg 0%nat 1%nat). lia. }
    split.
    + rewrite map_app. apply StronglySorted_app_2.
      * intros x1 x2 H1 H2.
        apply list_elem_of_fmap in H1 as (e1 & -> & H1).
        apply list_elem_of_fmap in H2 as (e2 & -> & H2).
        rewrite Forall_forall in Hhd, Htl.
        rewrite (Hhd e1 H1). now apply Htl.
      * clear -Hhd. induction Hhd as [|e es He Hes IHe]; simpl; constructor;
          [exact IHe |].
        apply Forall_forall. intros x Hx.
        apply list_elem_of_fmap in Hx as (e' & -> & Hx).
        rewrite Forall_forall in Hes. rewrite He, (Hes e' Hx). lia.
      * exact IHs.
    + apply Forall_app. split; [| exact Htl].
      eapply Forall_impl; [exact Hhd |]. simpl. intros e ->. lia.
Qed.

(** X2: the entries of an outline follow the pages of the document: their
    page numbers never decrease. *)
Theorem outline_pages_sorted (doc : document) :
  StronglySorted le (map page_no (outline (process_document doc))).
Proof.
  rewrite process_document_outline. unfold outline_of_first_lines.
  apply (first_lines_pages_sorted _ _ _ (fun i => i)). auto.
Qed.

(** X3: an outline has at most one entry for each block of the document. *)
Theorem outline_length_bound (doc : document) :
  (length (outline (process_document doc)) <= total_blocks doc)%nat.
Proof.
  rewrite process_document_outline. unfold outline_of_first_lines, total_blocks.
  generalize (first_line_entry (fst (analyze_first_page doc))
                (snd (analyze_first_page doc)) (learned_levels doc)) as f.
  intros f. revert f. induction doc as [|p ps IH]; intros f; [reflexivity |].
  rewrite imap_cons. cbn [concat map]. rewrite !length_app.
  specialize (IH (f ∘ S)).
  assert (Hp : (length (omap (f 0%nat) (blocks p)) <= length (blocks p))%nat).
  { clear. induction (blocks p) as [|b bs IHb]; simpl; [lia |].
    destruct (f 0%nat b); simpl; [apply le_n_S | apply le_S]; exact IHb. }
  unfold compose in IH.
  change (imap ((fun i p0 => omap (f i) (blocks p0)) ∘ S) ps)
    with (imap (fun i p0 => omap (f (S i)) (blocks p0)) ps).
  lia.
Qed.

(** * Further properties of the first page *)

Lemma max_size_fold_ge a bs : (a <= foldl max_size_step a bs)%Z.
Proof.
  revert a. induction bs as [|b bs IH]; intros a; simpl; [lia |].
  etransitivity; [| apply IH]. unfold max_size_step.
  destruct (first_line_spans b) as [[sp sps]|]; lia.
Qed.

Lemma max_size_fold_upper a bs x :
  x ∈ omap first_line_spans bs ->
  (first_line_size x <= foldl max_size_step a bs)%Z.
Proof.
  revert a. induction bs as [|b bs IH]; intros a; simpl.
  - intros H. now apply elem_of_nil in H.
  - unfold max_size_step at 2.
    destruct (first_line_spans b) as [[sp sps]|] eqn:Hb.
    + intros H. apply elem_of_cons in H as [-> | H]; [| now apply IH].
      etransitivity; [| apply max_size_fold_ge]. unfold first_line_size. simpl. lia.
    + apply IH.
Qed.

Lemma max_size_fold_attained a bs :
  foldl max_size_step a bs = a
  \/ exists x, x ∈ omap first_line_spans bs
               /\ first_line_size x = foldl max_size_step a bs.
Proof.
  revert a. induction bs as [|b bs IH]; intros a; simpl; [now left |].
  unfold max_size_step at 2 4.
  destruct (first_line_spans b) as [[sp sps]|] eqn:Hb.
  - destruct (IH (Z.max a (py_round (span_size sp)))) as [H | (x & Hx & H)].
    + rewrite H. destruct (Z.max_spec a (py_round (span_size sp))) as [[_ ->] | [_ ->]].
      * right. exists (sp, sps). split; [apply list_elem_of_here | reflexivity].
      * now left.
    + right. exists x. split; [now apply list_elem_of_further | exact H].
  - apply IH.
Qed.

(** The second loop of [analyze_first_page] sorts the first lines in two. *)
Lemma title_fold_spec (m : Z) (bs : list block) (tl : list str) (ig : gset str) :
  foldl (title_step m) (tl, ig) bs
  = (tl ++ map (fun x => line_text_of (snd x))
               (filter (fun x => first_line_size x = m) (omap first_line_spans bs)),
     list_to_set (map (fun x => line_text_of (snd x))
                      (filter (fun x => first_line_size x <> m)
                              (omap first_line_spans bs))) ∪ ig).
Proof.
  revert tl ig. induction bs as [|b bs IH]; intros tl ig.
  - simpl. rewrite app_nil_r. f_equal. set_solver.
  - cbn [foldl]. unfold title_step at 2. cbn [omap list_omap].
    destruct (first_line_spans b) as [[sp sps]|] eqn:Hb.
    + cbn [fst snd]. rewrite !filter_cons. unfold first_line_size at 1 3.
      cbn [fst snd].
      destruct (Z.eqb_spec (py_round (span_size sp)) m) as [He | He].
      * rewrite IH, decide_True, decide_False by tauto. cbn [map].
        rewrite <- app_assoc. reflexivity.
      * rewrite IH, decide_False, decide_True by tauto. cbn [map].
        f_equal. cbn [list_to_set foldr]. set_solver.
    + apply IH.
Qed.

(** The two loops of [analyze_first_page] on a page with a first line of a
    positive rounded size. *)
Lemma analyze_first_page_split (p : page) (ps : list page) :
  max_font_size_of p <> 0%Z ->
  analyze_first_page (p :: ps)
  = (PyStr.join [PyStr.space] (title_fragments p), list_to_set (ignored_texts p))
  /\ title_fragments p <> []
  /\ (0 < max_font_size_of p)%Z
  /\ forall x, x ∈ first_lines p -> (first_line_size x <= max_font_size_of p)%Z.
Proof.
  intros Hmax.
  assert (Hpos : (0 < max_font_size_of p)%Z).
  { pose proof (max_size_fold_ge 0 (blocks p)). unfold max_font_size_of in *. lia. }
  assert (Hfr : title_fragments p <> []).
  { unfold title_fragments, max_font_size_of, first_lines in *.
    destruct (max_size_fold_attained 0 (blocks p)) as [H | (x & Hx & H)];
      [congruence |].
    intros Hnil. apply fmap_nil_inv in Hnil.
    assert (Hin : x ∈ filter (fun x => first_line_size x = foldl max_size_step 0%Z (blocks p))
                         (omap first_line_spans (blocks p)))
      by now apply list_elem_of_filter.
    rewrite Hnil in Hin. now apply elem_of_nil in Hin. }
  split; [| split; [exact Hfr | split; [exact Hpos |] ]].
  - unfold analyze_first_page. cbn [blocks].
    unfold title_fragments, ignored_texts, first_lines, max_font_size_of in *.
    destruct (blocks p) as [|b bs] eqn:Hbs; [simpl in Hmax; congruence |].
    destruct (Z.eqb_spec (foldl max_size_step 0%Z (b :: bs)) 0) as [? | _];
      [congruence |].
    rewrite title_fold_spec. cbn [app].
    destruct (map _ (filter _ _)) eqn:Hm; [congruence |].
    f_equal. set_solver.
  - intros x Hx. now apply max_size_fold_upper.
Qed.

(** X4: when the first page has a first line of a positive rounded size,
    the title is the texts of the first lines of the largest size, joined by
    spaces in the order of the blocks (there is at least one), the ignore set
    is the set of the texts of the other first lines, and no first line is
    larger than the title. *)
Theorem analyze_first_page_spec (p : page) (ps : list page) :
  max_font_size_of p <> 0%Z ->
  analyze_first_page (p :: ps)
  = (PyStr.join [PyStr.space] (title_fragments p), list_to_set (ignored_texts p))
  /\ title_fragments p <> []
  /\ (0 < max_font_size_of p)%Z
  /\ forall x, x ∈ first_lines p -> (first_line_size x <= max_font_size_of p)%Z.
Proof. exact (analyze_first_page_split p ps). Qed.

Lemma first_page_entry_is_title_line (p : page) (ps : list page)
    (e : outline_entry) :
  max_font_size_of p <> 0%Z ->
  e ∈ outline (process_document (p :: ps)) -> page_no e = 1%nat ->
  text e ∈ title_fragments p /\ (2 <= length (title_fragments p))%nat.
Proof.
  intros Hmax He Hpg.
  destruct (analyze_first_page_split p ps Hmax) as (Han & Hfr & _ & _).
  rewrite process_document_outline, Han in He. cbn [fst snd] in He.
  apply elem_of_outline_of_first_lines in He as (i & p' & b & Hp & Hb & He).
  apply first_line_entry_inv in He
    as (sp & sps & Hf & Ht & Hpg' & _ & _ & Hnt & Hni & _).
  assert (i = 0%nat) by lia. subst i. injection Hp as <-.
  assert (Hx : (sp, sps) ∈ first_lines p).
  { unfold first_lines. apply list_elem_of_omap. now exists b. }
  assert (Hin : text e ∈ title_fragments p).
  { destruct (decide (first_line_size (sp, sps) = max_font_size_of p)) as [Hs | Hs].
    - unfold title_fragments. apply list_elem_of_fmap. exists (sp, sps).
      split; [exact Ht | now apply list_elem_of_filter].
    - exfalso. apply Hni. apply elem_of_list_to_set.
      unfold ignored_texts. apply list_elem_of_fmap. exists (sp, sps).
      split; [exact Ht | now apply list_elem_of_filter]. }
  split; [exact Hin |].
  destruct (title_fragments p) as [|t [|t' l]]; [congruence | | simpl; lia].
  exfalso. apply list_elem_of_singleton in Hin. now apply Hnt.
Qed.

(** X5: when the first page has a first line of a positive rounded size, an
    entry of page 1 can only be one of the lines of a title that was joined
    from two lines or more; a first page with a title of one line gives no
    entry. *)
Theorem first_page_entries_are_title_lines (p : page) (ps : list page)
    (e : outline_entry) :
  max_font_size_of p <> 0%Z ->
  e ∈ outline (process_document (p :: ps)) -> page_no e = 1%nat ->
  text e ∈ title_fragments p /\ (2 <= length (title_fragments p))%nat.
Proof. exact (first_page_entry_is_title_line p ps e). Qed.

(** A document whose pages beyond the first contain no text run has no
    entry, or is a single page; the entries of a single page with a first
    line of a positive rounded size are lines of its title, joined from two
    lines or more. *)
Lemma empty_body_entries_are_title_lines (doc : document) (e : outline_entry) :
  body_pages_empty doc -> e ∈ outline (process_document doc) ->
  exists p, doc = [p]
            /\ (max_font_size_of p <> 0%Z ->
                text e ∈ title_fragments p
                /\ (2 <= length (title_fragments p))%nat).
Proof.
  intros Hbody He.
  destruct (decide (length doc = 1%nat)) as [Hlen | Hlen].
  - destruct doc as [|p [|q ps]]; try discriminate. exists p.
    split; [reflexivity |]. intros Hmax.
    apply (first_page_entry_is_title_line p [] e Hmax He).
    apply outline_entry_page in He as [Hpg _]. simpl in Hpg. lia.
  - rewrite (empty_body_short_circuit doc Hlen Hbody) in He.
    now apply elem_of_nil in He.
Qed.

(** * Further properties of the style learner *)

Lemma dict_get_set {V} (s k : style) (v : V) (d : list (style * V)) :
  Dict.get s (Dict.set k v d) = if decide (s = k) then Some v else Dict.get s d.
Proof.
  induction d as [|[k' v'] d IH]; simpl.
  - destruct (decide (s = k)); reflexivity.
  - destruct (decide (k = k')) as [-> | Hk]; simpl.
    + destruct (decide (s = k')); reflexivity.
    + destruct (decide (s = k')) as [-> | Hs].
      * destruct (decide (k' = k)); [congruence | reflexivity].
      * exact IH.
Qed.

Lemma count_line_styles c l :
  count_line c l
  = foldl (fun c k => Dict.incr k c) c
          (option_list (option_map style_of (head (spans l)))).
Proof. unfold count_line. now destruct (spans l). Qed.

Lemma count_block_styles c b :
  count_block c b = foldl (fun c k => Dict.incr k c) c (block_styles b).
Proof.
  unfold count_block, block_styles. destruct (lines b) as [ls|]; [| reflexivity].
  revert c. induction ls as [|l ls IH]; intros c; [reflexivity |].
  cbn [foldl omap list_omap]. rewrite IH, count_line_styles.
  destruct (option_map style_of (head (spans l))); reflexivity.
Qed.

Lemma count_page_styles c p :
  count_page c p = foldl (fun c k => Dict.incr k c) c (page_styles p).
Proof.
  unfold count_page, page_styles. revert c.
  induction (blocks p) as [|b bs IH]; intros c; [reflexivity |].
  cbn [foldl map concat]. now rewrite foldl_app, IH, count_block_styles.
Qed.

(** The counting loops are one pass over the counted styles. *)
Lemma count_styles_scanned doc start_page :
  count_styles doc start_page
  = foldl (fun c k => Dict.incr k c) [] (scanned_styles doc start_page).
Proof.
  unfold count_styles, scanned_styles.
  generalize ([] : list (style * nat)) as c.
  induction (drop start_page doc) as [|p ps IH]; intros c; [reflexivity |].
  cbn [foldl map concat]. now rewrite foldl_app, IH, count_page_styles.
Qed.

Lemma occurrences_cons s k l :
  occurrences s (k :: l)
  = if decide (k = s) then S (occurrences s l) else occurrences s l.
Proof.
  unfold occurrences. rewrite filter_cons.
  destruct (decide (k = s)); reflexivity.
Qed.

Lemma counter_fold_get (s : style) (l : list style) (c : list (style * nat)) :
  Dict.get s (foldl (fun c k => Dict.incr k c) c l)
  = match occurrences s l with
    | O => Dict.get s c
    | S n => Some (default 0%nat (Dict.get s c) + S n)%nat
    end.
Proof.
  revert c. induction l as [|k l IH]; intros c; [reflexivity |].
  cbn [foldl]. rewrite IH, occurrences_cons. unfold Dict.incr.
  rewrite dict_get_set.
  destruct (decide (k = s)) as [-> | Hk].
  - rewrite decide_True by reflexivity.
    destruct (occurrences s l); simpl; f_equal; lia.
  - rewrite decide_False by congruence. reflexivity.
Qed.

Lemma occurrences_pos s l : (0 < occurrences s l)%nat <-> s ∈ l.
Proof.
  induction l as [|k l IH].
  - split; [inversion 1 | intros H; now apply elem_of_nil in H].
  - rewrite occurrences_cons, elem_of_cons.
    destruct (decide (k = s)) as [-> | Hk].
    + split; [now left | lia].
    + rewrite IH. split; [now right | intros [? | ?]; congruence].
Qed.

(** What the table holds for one style. *)
Lemma count_styles_get (doc : document) (start_page : nat) (s : style) :
  Dict.get s (count_styles doc start_page)
  = match occurrences s (scanned_styles doc start_page) with
    | O => None
    | n => Some n
    end.
Proof.
  rewrite count_styles_scanned, counter_fold_get.
  destruct (occurrences s _); reflexivity.
Qed.

(** X6: the frequency table holds, for each style, the number of lines with
    a span whose first span has that style on the pages from the start page
    on, and no entry for a style that does not occur. *)
Theorem count_styles_counts (doc : document) (start_page : nat) (s : style) :
  Dict.get s (count_styles doc start_page)
  = match occurrences s (scanned_styles doc start_page) with
    | O => None
    | n => Some n
    end.
Proof. exact (count_styles_get doc start_page s). Qed.

Lemma count_styles_keys doc start_page s :
  s ∈ Dict.keys (count_styles doc start_page)
  <-> s ∈ scanned_styles doc start_page.
Proof.
  rewrite <- (occurrences_pos s (scanned_styles doc start_page)).
  pose proof (dict_get_None s (count_styles doc start_page)) as Hn.
  rewrite count_styles_get in Hn.
  destruct (occurrences s (scanned_styles doc start_page)) eqn:Ho.
  - split; [| intros H; inversion H]. intros Hin. exfalso. now apply (proj1 Hn).
  - split; [intros _; apply Nat.lt_0_succ |]. intros _.
    destruct (decide (s ∈ Dict.keys (count_styles doc start_page))) as [| Hin];
      [assumption |].
    apply Hn in Hin. discriminate.
Qed.

Lemma best_fold_split (pre post rest : list (style * nat)) (best : style * nat) :
  Forall (fun kv => (snd kv < snd best)%nat) pre ->
  Forall (fun kv => (snd kv <= snd best)%nat) post ->
  let best' := foldl (fun best kv' => if (snd best <? snd kv')%nat then kv' else best)
                     best rest in
  exists l1 l2,
    pre ++ best :: post ++ rest = l1 ++ best' :: l2
    /\ Forall (fun kv => (snd kv < snd best')%nat) l1
    /\ Forall (fun kv => (snd kv <= snd best')%nat) l2.
Proof.
  cbv zeta. revert pre post best.
  induction rest as [|kv rest IH]; intros pre post best Hpre Hpost.
  - exists pre, post. now rewrite app_nil_r.
  - cbn [foldl]. destruct (snd best <? snd kv)%nat eqn:Hlt.
    + apply Nat.ltb_lt in Hlt.
      destruct (IH (pre ++ best :: post) [] kv) as (l1 & l2 & Heq & H1 & H2).
      * apply Forall_app. split.
        -- eapply Forall_impl; [exact Hpre |]. simpl. intros; lia.
        -- constructor; [exact Hlt |].
           eapply Forall_impl; [exact Hpost |]. simpl. intros; lia.
      * constructor.
      * exists l1, l2. split; [| now split].
        rewrite <- Heq. cbn [app]. now rewrite <- app_assoc.
    + apply Nat.ltb_ge in Hlt.
      destruct (IH pre (post ++ [kv]) best) as (l1 & l2 & Heq & H1 & H2).
      * exact Hpre.
      * apply Forall_app. split; [exact Hpost | now repeat constructor].
      * exists l1, l2. split; [| now split].
        rewrite <- Heq. now rewrite <- app_assoc.
Qed.

(** [most_common(1)] returns the first of the items with the largest
    count. *)
Lemma most_common1_split (c : list (style * nat)) k n :
  Dict.most_common1 c = Some (k, n) ->
  exists l1 l2,
    c = l1 ++ (k, n) :: l2
    /\ Forall (fun kv => (snd kv < n)%nat) l1
    /\ Forall (fun kv => (snd kv <= n)%nat) l2.
Proof.
  destruct c as [|kv c]; [discriminate |]. simpl. intros [= H].
  destruct (best_fold_split [] [] c kv) as (l1 & l2 & Heq & H1 & H2);
    [constructor | constructor |].
  cbv zeta in *. rewrite H in Heq, H1, H2. now exists l1, l2.
Qed.

Lemma dict_get_of_elem {V} (k : style) (v : V) (d : list (style * V)) :
  NoDup (Dict.keys d) -> (k, v) ∈ d -> Dict.get k d = Some v.
Proof.
  induction d as [|[k' v'] d IH]; simpl; intros Hnd Hin.
  - now apply elem_of_nil in Hin.
  - apply NoDup_cons in Hnd as [Hk Hnd].
    apply elem_of_cons in Hin as [[= -> ->] | Hin].
    + now rewrite decide_True.
    + destruct (decide (k = k')) as [-> | _]; [| now apply IH].
      exfalso. apply Hk. apply list_elem_of_fmap. now exists (k', v).
Qed.

Lemma counter_fold_keys (l : list style) (s : style) :
  s ∈ Dict.keys (foldl (fun c k => Dict.incr k c) [] l) <-> s ∈ l.
Proof.
  rewrite <- (occurrences_pos s l).
  pose proof (dict_get_None s (foldl (fun c k => Dict.incr k c) [] l)) as Hn.
  rewrite counter_fold_get in Hn.
  destruct (occurrences s l) eqn:Ho.
  - split; [| intros H; inversion H]. intros Hin. exfalso. now apply (proj1 Hn).
  - split; [intros _; apply Nat.lt_0_succ |]. intros _.
    destruct (decide (s ∈ Dict.keys (foldl (fun c k => Dict.incr k c) [] l)))
      as [| Hin]; [assumption |].
    apply Hn in Hin. discriminate.
Qed.

(** The keys of a counter are in the order in which they were first seen. *)
Lemma first_seen_order (l : list style) (b s : style) ka kb :
  Dict.keys (foldl (fun c k => Dict.incr k c) [] l) = ka ++ b :: kb ->
  s ∈ kb -> exists l1 l2, l = l1 ++ b :: l2 /\ s ∉ l1.
Proof.
  revert ka kb. induction l as [|k l IH] using rev_ind; intros ka kb Hkeys Hs.
  - simpl in Hkeys. now destruct ka.
  - rewrite foldl_snoc in Hkeys.
    set (tab := foldl (fun c k => Dict.incr k c) [] l) in *.
    unfold Dict.incr in Hkeys.
    destruct (decide (k ∈ Dict.keys tab)) as [Hk | Hk].
    + rewrite dict_keys_set_old in Hkeys by exact Hk.
      destruct (IH ka kb Hkeys Hs) as (l1 & l2 & -> & Hn).
      exists l1, (l2 ++ [k]). split; [now rewrite <- app_assoc | exact Hn].
    + rewrite dict_keys_set_new in Hkeys by exact Hk.
      destruct kb as [|x kb _] using rev_ind; [now apply elem_of_nil in Hs |].
      change (ka ++ b :: kb ++ [x]) with (ka ++ (b :: kb) ++ [x]) in Hkeys.
      rewrite app_assoc in Hkeys.
      apply app_inj_tail in Hkeys as [Hkeys <-].
      apply elem_of_app in Hs as [Hs | Hs].
      * destruct (IH ka kb Hkeys Hs) as (l1 & l2 & -> & Hn).
        exists l1, (l2 ++ [k]). split; [now rewrite <- app_assoc | exact Hn].
      * apply list_elem_of_singleton in Hs as ->.
        assert (Hb : b ∈ l).
        { apply counter_fold_keys. fold tab. rewrite Hkeys.
          apply elem_of_app. right. apply list_elem_of_here. }
        apply list_elem_of_split in Hb as (l1 & l2 & ->).
        exists l1, (l2 ++ [k]). split; [now rewrite <- app_assoc |].
        intros Hin. apply Hk. apply counter_fold_keys.
        apply elem_of_app. now left.
Qed.

(** X7: the body style is a most frequent style of the counted lines, and
    among the styles with as many lines it is the one that occurs first. *)
Theorem body_style_most_frequent (doc : document) (start_page : nat) (b : style) :
  snd (get_style_hierarchy doc start_page) = Some b ->
  let l := scanned_styles doc start_page in
  b ∈ l
  /\ (forall s, (occurrences s l <= occurrences b l)%nat)
  /\ (forall s, s <> b -> occurrences s l = occurrences b l ->
        exists l1 l2, l = l1 ++ b :: l2 /\ s ∉ l1).
Proof.
  cbv zeta. unfold get_style_hierarchy, hierarchy_of_counts.
  destruct (Dict.most_common1 _) as [[b' n]|] eqn:Hm; [| discriminate].
  simpl. intros [= ->].
  destruct (most_common1_split _ _ _ Hm) as (l1 & l2 & Hc & H1 & H2).
  pose proof (count_styles_NoDup doc start_page) as Hnd.
  assert (Hb : Dict.get b (count_styles doc start_page) = Some n).
  { apply dict_get_of_elem; [exact Hnd |]. rewrite Hc.
    apply elem_of_app. right. apply list_elem_of_here. }
  rewrite count_styles_get in Hb.
  assert (Hn : occurrences b (scanned_styles doc start_page) = n /\ (0 < n)%nat).
  { destruct (occurrences b _); [discriminate |]. injection Hb as <-. lia. }
  destruct Hn as [Hn Hpos].
  assert (Hs : forall s, (0 < occurrences s (scanned_styles doc start_page))%nat ->
             (s, occurrences s (scanned_styles doc start_page))
             ∈ count_styles doc start_page).
  { intros s Hs. apply dict_get_elem_of. rewrite count_styles_get.
    destruct (occurrences s _); [lia | reflexivity]. }
  rewrite Forall_forall in H1, H2.
  split; [apply occurrences_pos; lia |]. split.
  - intros s. rewrite Hn.
    destruct (Nat.eq_0_gt_0_cases (occurrences s (scanned_styles doc start_page)))
      as [-> | Hpos']; [lia |].
    specialize (Hs s Hpos'). rewrite Hc in Hs.
    apply elem_of_app in Hs as [Hs | Hs]; [apply H1 in Hs; simpl in Hs; lia |].
    apply elem_of_cons in Hs as [[= _ ->] | Hs]; [lia |].
    apply H2 in Hs. exact Hs.
  - intros s Hne Heq. rewrite Hn in Heq.
    assert (Hin : (s, n) ∈ count_styles doc start_page)
      by (rewrite <- Heq; apply Hs; lia).
    rewrite Hc in Hin.
    apply elem_of_app in Hin as [Hin | Hin]; [apply H1 in Hin; simpl in Hin; lia |].
    apply elem_of_cons in Hin as [[= ->] | Hin]; [congruence |].
    apply (first_seen_order _ b s (map fst l1) (map fst l2)).
    + rewrite <- count_styles_scanned, Hc. unfold Dict.keys.
      now rewrite map_app.
    + apply list_elem_of_fmap. now exists (s, n).
Qed.

Lemma hierarchy_keys doc start_page b n :
  Dict.most_common1 (count_styles doc start_page) = Some (b, n) ->
  let sorted := heading_styles_of (count_styles doc start_page) b in
  fst (get_style_hierarchy doc start_page) = zip (take 3 sorted) heading_levels
  /\ Dict.keys (fst (get_style_hierarchy doc start_page)) = take 3 sorted
  /\ NoDup sorted.
Proof.
  cbv zeta. intros Hm. unfold get_style_hierarchy, hierarchy_of_counts.
  rewrite Hm. cbn [fst].
  assert (Hnd : NoDup (heading_styles_of (count_styles doc start_page) b))
    by apply sorted_desc_NoDup, candidate_styles_NoDup, count_styles_NoDup.
  split; [now apply level_map_zip |]. split; [now apply level_map_keys | exact Hnd].
Qed.

Lemma dict_get_key {V} (k : style) (v : V) (d : list (style * V)) :
  Dict.get k d = Some v -> k ∈ Dict.keys d.
Proof.
  intros H. destruct (decide (k ∈ Dict.keys d)) as [| Hn]; [assumption |].
  apply dict_get_None in Hn. congruence.
Qed.

(** X8: the body style never has a level, and a style with a level occurs
    among the counted lines and is larger than the body style, or as large
    and bold while the body style is not. *)
Theorem body_style_has_no_level (doc : document) (start_page : nat) (b : style) :
  snd (get_style_hierarchy doc start_page) = Some b ->
  let style_to_level := fst (get_style_hierarchy doc start_page) in
  Dict.get b style_to_level = None
  /\ forall k lvl,
       Dict.get k style_to_level = Some lvl ->
       k ∈ scanned_styles doc start_page
       /\ ((fst b < fst k)%Z
           \/ (fst k = fst b /\ snd k = true /\ snd b = false)).
Proof.
  cbv zeta. intros Hb.
  assert (Hm : exists n, Dict.most_common1 (count_styles doc start_page) = Some (b, n)).
  { revert Hb. unfold get_style_hierarchy, hierarchy_of_counts.
    destruct (Dict.most_common1 _) as [[b' n]|]; [| discriminate].
    simpl. intros [= ->]. now exists n. }
  destruct Hm as [n Hm].
  destruct (hierarchy_keys doc start_page b n Hm) as (_ & Hkeys & _).
  assert (Hcand : forall k, k ∈ Dict.keys (fst (get_style_hierarchy doc start_page)) ->
            k ∈ candidate_styles (count_styles doc start_page) b).
  { intros k Hk. rewrite Hkeys in Hk. apply subseteq_take in Hk.
    unfold heading_styles_of in Hk. now rewrite sorted_desc_perm in Hk. }
  split.
  - apply dict_get_None. intros Hk. apply Hcand in Hk.
    apply candidate_styles_spec in Hk as [_ [Hlt | (_ & _ & Hne)]]; [lia | congruence].
  - intros k lvl Hget. apply dict_get_key, Hcand in Hget.
    apply candidate_styles_spec in Hget as [Hk Hc].
    split; [now apply count_styles_keys |].
    destruct Hc as [Hlt | (He & Hbold & Hne)]; [now left |]. right.
    split; [exact He |]. split; [exact Hbold |].
    destruct k as [kz kb], b as [bz bb]. simpl in *. subst.
    destruct bb; [congruence | reflexivity].
Qed.

Lemma strongly_sorted_lookup {A} (R : A -> A -> Prop) (l : list A) i j x y :
  StronglySorted R l -> (i < j)%nat ->
  l !! i = Some x -> l !! j = Some y -> R x y.
Proof.
  intros Hs. revert i j. induction Hs as [|a l Hs IH Ha]; intros i j Hij Hi Hj.
  - discriminate.
  - destruct j as [|j]; [lia |]. destruct i as [|i].
    + injection Hi as <-. rewrite Forall_forall in Ha. apply Ha.
      eapply list_elem_of_lookup_2. exact Hj.
    + apply (IH i j); [lia | exact Hi | exact Hj].
Qed.

(** X9: the entry of rank i of the level map has the level H(i+1), and
    there are at most three entries; the style of a higher level is never
    smaller than the style of a lower one; and a candidate style that got no
    level is no larger than any style with a level. *)
Theorem larger_styles_first (doc : document) (start_page : nat) :
  let style_to_level := fst (get_style_hierarchy doc start_page) in
  (forall i k l,
      style_to_level !! i = Some (k, l) -> l = level_name i /\ (i < 3)%nat)
  /\ (forall i j ki kj li lj,
        (i < j)%nat ->
        style_to_level !! i = Some (ki, li) -> style_to_level !! j = Some (kj, lj) ->
        (fst kj <= fst ki)%Z)
  /\ (forall s k,
        s ∈ candidates_of (count_styles doc start_page) ->
        s ∉ Dict.keys style_to_level -> k ∈ Dict.keys style_to_level ->
        (fst s <= fst k)%Z).
Proof.
  cbv zeta. unfold candidates_of.
  destruct (Dict.most_common1 (count_styles doc start_page)) as [[b n]|] eqn:Hm.
  - destruct (hierarchy_keys doc start_page b n Hm) as (Hzip & Hkeys & _).
    pose proof (sorted_desc_sorted (candidate_styles (count_styles doc start_page) b))
      as Hsorted.
    fold (heading_styles_of (count_styles doc start_page) b) in Hsorted.
    set (sorted := heading_styles_of (count_styles doc start_page) b) in *.
    split; [| split].
    + intros i k l Hi. rewrite Hzip in Hi.
      apply lookup_zip_with_Some in Hi as (xi & yi & [= -> ->] & Hxi & Hyi).
      apply lookup_take_Some in Hxi as [_ Hi3]. split; [| exact Hi3].
      unfold heading_levels in Hyi.
      destruct i as [|[|[|i]]]; try lia; injection Hyi as <-; reflexivity.
    + intros i j ki kj li lj Hij Hi Hj. rewrite Hzip in Hi, Hj.
      apply lookup_zip_with_Some in Hi as (xi & yi & [= -> ->] & Hxi & Hyi).
      apply lookup_zip_with_Some in Hj as (xj & yj & [= -> ->] & Hxj & Hyj).
      apply lookup_take_Some in Hxi as [Hxi Hi3].
      apply lookup_take_Some in Hxj as [Hxj Hj3].
      exact (strongly_sorted_lookup _ _ _ _ _ _ Hsorted Hij Hxi Hxj).
    + intros s k Hs Hns Hk. rewrite Hkeys in Hns, Hk.
      assert (Hin : s ∈ sorted)
        by (unfold sorted, heading_styles_of; now rewrite sorted_desc_perm).
      rewrite <- (take_drop 3 sorted) in Hin, Hsorted.
      apply elem_of_app in Hin as [Hin | Hin]; [contradiction |].
      apply StronglySorted_app in Hsorted as (Hall & _ & _).
      exact (Hall k s Hk Hin).
  - unfold get_style_hierarchy, hierarchy_of_counts. rewrite Hm. simpl.
    split; [intros i k l Hi; discriminate |].
    split; [intros i j ki kj li lj _ Hi; discriminate |].
    intros s k Hs. now apply elem_of_nil in Hs.
Qed.

(** X10: when no counted line has a style larger than the body style, or as
    large and bold without being the body style, the level map is empty and
    the outline is empty. *)
Theorem no_heading_style_no_outline (doc : document) (b : style) :
  snd (get_style_hierarchy doc (start_page_for_styles doc)) = Some b ->
  (forall s, s ∈ scanned_styles doc (start_page_for_styles doc) ->
             (fst s <= fst b)%Z /\ (fst s = fst b -> snd s = true -> s = b)) ->
  learned_levels doc = [] /\ outline (process_document doc) = [].
Proof.
  intros Hb Hall.
  assert (Hl : learned_levels doc = []).
  { unfold learned_levels. revert Hb.
    unfold get_style_hierarchy, hierarchy_of_counts.
    destruct (Dict.most_common1 _) as [[b' n]|]; [| discriminate].
    simpl. intros [= ->].
    assert (Hc : candidate_styles
                   (count_styles doc (start_page_for_styles doc)) b = []).
    { apply elem_of_nil_inv. intros s Hs.
      apply candidate_styles_spec in Hs as [Hk Hs].
      apply count_styles_keys, Hall in Hk as [Hle Heq].
      destruct Hs as [Hlt | (He & Hbold & Hne)]; [lia | auto]. }
    unfold heading_styles_of. now rewrite Hc. }
  split; [exact Hl |].
  rewrite process_document_outline, Hl.
  apply elem_of_nil_inv. intros e He.
  apply elem_of_outline_of_first_lines in He as (i & p & bl & _ & _ & He).
  apply first_line_entry_inv in He as (sp & sps & _ & _ & _ & Hget & _).
  discriminate.
Qed.


End FurtherFacts.

Lemma outline_entries_well_formed_witness :
  Entry (u "H1") (u "Conclusion") 3 ∈ outline (process_document Samples.report) /\
  (1 <= 3 <= length Samples.report)%nat /\
  PyStr.strip (u "Conclusion") = (u "Conclusion").
Proof.
  assert (H : Entry (u "H1") (u "Conclusion") 3 ∈ outline (process_document Samples.report))
    by (apply (bool_decide_unpack _); vm_compute; exact I).
  split; [exact H |].
  exact (outline_entries_well_formed Samples.report _ H).
Defined.

Lemma analyze_first_page_spec_witness :
  max_font_size_of (Page [Samples.one_line "Report Title" 24;
                          Samples.one_line "A subtitle" 14] []) <> 0%Z /\
  analyze_first_page Samples.report = ((u "Report Title"), {[(u "A subtitle")]}).
Proof.
  assert (H : max_font_size_of (Page [Samples.one_line "Report Title" 24;
                                      Samples.one_line "A subtitle" 14] []) <> 0%Z)
    by (vm_compute; discriminate).
  split; [exact H |].
  destruct (analyze_first_page_spec _
              [Page [Samples.one_line "Introduction" 16;
                     Samples.one_line "some text" 10;
                     Samples.one_line "more text" 10; Samples.one_line "1.2" 16;
                     Samples.one_line "and more" 10] [];
               Page [Samples.one_line "closing text" 10;
                     Samples.one_line "Conclusion" 16;
                     Samples.one_line "the end" 10] []] H) as [Heq _].
  etransitivity; [exact Heq |]. vm_compute. reflexivity.
Defined.

Lemma first_page_entries_are_title_lines_witness :
  max_font_size_of (Page [Samples.one_line "Annual" 24;
                          Samples.one_line "Report" 24] []) <> 0%Z /\
  Entry (u "H1") (u "Annual") 1 ∈ outline (process_document Samples.two_line_title) /\
  (u "Annual") ∈ title_fragments (Page [Samples.one_line "Annual" 24;
                                    Samples.one_line "Report" 24] []).
Proof.
  assert (Hm : max_font_size_of (Page [Samples.one_line "Annual" 24;
                                       Samples.one_line "Report" 24] []) <> 0%Z)
    by (vm_compute; discriminate).
  assert (He : Entry (u "H1") (u "Annual") 1
               ∈ outline (process_document Samples.two_line_title))
    by (apply (bool_decide_unpack _); vm_compute; exact I).
  split; [exact Hm |]. split; [exact He |].
  exact (proj1 (first_page_entries_are_title_lines _ _ _ Hm He eq_refl)).
Defined.

Lemma body_style_most_frequent_witness :
  snd (get_style_hierarchy Samples.report 1) = Some (10%Z, false) /\
  (10%Z, false) ∈ scanned_styles Samples.report 1.
Proof.
  assert (H : snd (get_style_hierarchy Samples.report 1) = Some (10%Z, false))
    by reflexivity.
  split; [exact H |].
  exact (proj1 (body_style_most_frequent Samples.report 1 _ H)).
Defined.

Lemma body_style_has_no_level_witness :
  snd (get_style_hierarchy Samples.report 1) = Some (10%Z, false) /\
  Dict.get (10%Z, false) (fst (get_style_hierarchy Samples.report 1)) = None.
Proof.
  assert (H : snd (get_style_hierarchy Samples.report 1) = Some (10%Z, false))
    by reflexivity.
  split; [exact H |].
  exact (proj1 (body_style_has_no_level Samples.report 1 _ H)).
Defined.

Lemma no_heading_style_no_outline_witness :
  snd (get_style_hierarchy Samples.form (start_page_for_styles Samples.form))
  = Some (10%Z, false) /\
  learned_levels Samples.form = [] /\
  outline (process_document Samples.form) = [].
Proof.
  assert (Hb : snd (get_style_hierarchy Samples.form
                      (start_page_for_styles Samples.form)) = Some (10%Z, false))
    by reflexivity.
  split; [exact Hb |].
  apply (no_heading_style_no_outline Samples.form _ Hb).
  intros s Hs. vm_compute in Hs.
  repeat (apply elem_of_cons in Hs as [-> | Hs]; [split; [vm_compute; discriminate | reflexivity] |]).
  now apply elem_of_nil in Hs.
Defined.

(** * Further properties of the batch *)

Section FurtherBatchFacts.
Context {T : UnicodeTables}.

(** X12: a run changes no file other than the outputs of the entries with
    the extension of a PDF: every other path of the output directory holds
    after the run what it held before, however the run ends. *)
Theorem batch_leaves_other_files (fitz_open : str -> opened)
    (input_dir output_dir : str) (listing : list str)
    (files : gmap str result) (p : str) :
  (forall f, f ∈ listing -> is_pdf_name f = true ->
             output_path_of output_dir f <> p) ->
  fst (process_all_pdfs fitz_open input_dir output_dir listing files) !! p
  = files !! p.
Proof. apply process_all_pdfs_frame. Qed.




End FurtherBatchFacts.


Lemma batch_leaves_other_files_witness :
  (forall f, f ∈ Samples.sample_listing -> is_pdf_name f = true ->
             output_path_of (u "./output") f <> u "./output/notes.json") /\
  fst (process_all_pdfs Samples.sample_open (u "./input") (u "./output")
         Samples.sample_listing
         {[u "./output/notes.json" := Result (u "kept") []]})
    !! u "./output/notes.json"
  = Some (Result (u "kept") []).
Proof.
  assert (H : forall f, f ∈ Samples.sample_listing -> is_pdf_name f = true ->
                        output_path_of (u "./output") f <> u "./output/notes.json").
  { intros f Hf Hpdf. unfold Samples.sample_listing in Hf. cbn [map] in Hf.
    repeat (apply elem_of_cons in Hf as [-> | Hf];
            [first [discriminate Hpdf | vm_compute; discriminate] |]).
    now apply elem_of_nil in Hf. }
  split; [exact H |].
  etransitivity;
    [exact (batch_leaves_other_files Samples.sample_open (u "./input")
              (u "./output") Samples.sample_listing _ _ H) |].
  apply lookup_singleton_eq.
Defined.



(** * Further properties of the output names *)

Lemma no_sep_no_char (f : str) : Path.no_sep f = no_char Path.sep f.
Proof. induction f as [|c f IH]; simpl; [reflexivity | now rewrite IH]. Qed.

Lemma no_char_app (c : char) (a b : str) :
  no_char c (a ++ b) = no_char c a && no_char c b.
Proof.
  induction a as [|x a IH]; simpl; [reflexivity |].
  now rewrite IH, andb_assoc.
Qed.

Lemma rfind_from_absent (i last : Z) (c : char) (p : str) :
  no_char c p = true -> Path.rfind_from i last c p = last.
Proof.
  revert i last. induction p as [|a p IH]; intros i last H; simpl; [reflexivity |].
  simpl in H. apply andb_true_iff in H as [Ha Hp].
  apply negb_true_iff in Ha. rewrite Ha. now apply IH.
Qed.

Lemma rfind_from_last (i last : Z) (c : char) (a b : str) :
  no_char c b = true ->
  Path.rfind_from i last c (a ++ c :: b) = (i + Z.of_nat (length a))%Z.
Proof.
  intros Hb. revert i last. induction a as [|x a IH]; intros i last.
  - cbn [app Path.rfind_from length]. rewrite N.eqb_refl.
    rewrite rfind_from_absent by exact Hb. lia.
  - cbn [app Path.rfind_from length]. rewrite IH. lia.
Qed.

Lemma slice_prefix (a b : str) :
  Path.slice 0 (Z.of_nat (length a)) (a ++ b) = a.
Proof.
  unfold Path.slice. rewrite Z.sub_0_r, Nat2Z.id. cbn [Z.to_nat drop].
  apply take_app_length.
Qed.

(** X15: a name of the form base.ext, without separator and with no dot in
    ext, loses its extension, unless base is made of dots only (or is
    empty), in which case the name is kept whole; the output file is named
    after the result, with the extension json. *)
Theorem splitext_root_spec (base ext : str) :
  Path.no_sep base = true -> Path.no_sep ext = true ->
  no_char Path.extsep ext = true ->
  Path.splitext_root (base ++ u "." ++ ext)
  = (if Path.all_extsep base then base ++ u "." ++ ext else base)
  /\ forall output_dir,
       output_path_of output_dir (base ++ u "." ++ ext)
       = Path.join output_dir
           ((if Path.all_extsep base then base ++ u "." ++ ext else base)
            ++ u ".json").
Proof.
  intros Hb He Hd.
  assert (Hroot : Path.splitext_root (base ++ u "." ++ ext)
                  = if Path.all_extsep base then base ++ u "." ++ ext else base).
  { unfold Path.splitext_root, Path.rfind.
    change (u "." ++ ext) with (Path.extsep :: ext).
    rewrite (rfind_from_last 0 (-1) Path.extsep base ext Hd).
    rewrite (rfind_from_absent 0 (-1) Path.sep).
    2:{ rewrite no_char_app. cbn [no_char]. rewrite <- !no_sep_no_char, Hb, He.
        reflexivity. }
    change (-1 + 1)%Z with 0%Z. rewrite Z.add_0_l, slice_prefix.
    assert ((-1 <? Z.of_nat (length base))%Z = true) as ->
      by (apply Z.ltb_lt; lia).
    now destruct (Path.all_extsep base). }
  split; [exact Hroot |].
  intros output_dir. unfold output_path_of. now rewrite Hroot.
Qed.

Lemma splitext_root_spec_witness :
  Path.no_sep (u "annual.report") = true /\ Path.no_sep (u "PDF") = true /\
  no_char Path.extsep (u "PDF") = true /\
  output_path_of (u "./output") (u "annual.report.PDF")
  = u "./output/annual.report.json".
Proof.
  split; [reflexivity |]. split; [reflexivity |]. split; [reflexivity |].
  exact (proj2 (splitext_root_spec (u "annual.report") (u "PDF")
                  eq_refl eq_refl eq_refl) (u "./output")).
Defined.

(** * Further properties of the validator *)

Section CaseFacts.
Context {T : UnicodeTables}.
Import PyStr.









(** ** Strings in lower case *)















End CaseFacts.


Section NoTextFacts.
Context {T : UnicodeTables}.

(** * A document without text *)

Lemma first_line_spans_no_run p b :
  ~ has_run p -> b ∈ blocks p -> first_line_spans b = None.
Proof.
  intros Hno Hb. destruct (first_line_spans b) as [[sp sps]|] eqn:Hf; [| reflexivity].
  exfalso. apply Hno.
  apply first_line_spans_spec in Hf as (l & ls & Hl & Hs & Hh).
  exists b, (l :: ls), l. rewrite Hs. repeat split; try assumption.
  - apply list_elem_of_here.
  - intros ->. discriminate.
Qed.

(** X16: a document without any text run has an empty outline; its title is
    the first line of the stripped text of the first raw block of page 1, or
    "Title not found" when page 1 has no block of one of the two kinds, or
    when there is no page. *)
Theorem no_text_document (doc : document) :
  (forall p, p ∈ doc -> ~ has_run p) ->
  process_document doc = Result (fallback_title doc) [].
Proof.
  intros Hno.
  assert (Hc : forall start_page, count_styles doc start_page = []).
  { intros start_page. unfold count_styles. apply count_pages_no_run.
    intros p Hp. apply Hno. eapply subseteq_drop. exact Hp. }
  assert (Ht : analyze_first_page doc = (fallback_title doc, ∅)).
  { destruct doc as [|p ps]; [reflexivity |].
    unfold analyze_first_page, fallback_title.
    destruct (blocks p) as [|b bs] eqn:Hbs; [reflexivity |].
    assert (Hmax : foldl max_size_step 0%Z (b :: bs) = 0%Z).
    { assert (Hall : forall b', b' ∈ b :: bs -> first_line_spans b' = None).
      { intros b' Hb'. apply (first_line_spans_no_run p).
        - apply Hno. apply list_elem_of_here.
        - now rewrite Hbs. }
      revert Hall. generalize (b :: bs) as l. generalize 0%Z as a.
      intros a l. revert a. induction l as [|x l IH]; intros a Hall; [reflexivity |].
      cbn [foldl]. unfold max_size_step at 2.
      rewrite (Hall x) by apply list_elem_of_here.
      apply IH. intros b' Hb'. apply Hall. now apply list_elem_of_further. }
    rewrite Hmax. cbn. now destruct (text_blocks p). }
  unfold process_document. rewrite Ht.
  unfold get_style_hierarchy. rewrite Hc. reflexivity.
Qed.

(** X17: when no first line of page 1 has a positive rounded size (no block
    at all, no line with a span, or sizes that round to zero or less), the
    ignore set is empty and the title is taken from the raw text of the page,
    or is "Title not found". *)
Theorem analyze_first_page_fallback (p : page) (ps : list page) :
  max_font_size_of p = 0%Z ->
  analyze_first_page (p :: ps) = (fallback_title (p :: ps), ∅).
Proof.
  unfold max_font_size_of, analyze_first_page, fallback_title. intros Hmax.
  destruct (blocks p) as [|b bs]; [reflexivity |].
  rewrite Hmax. cbn. now destruct (text_blocks p).
Qed.

Lemma counter_incr_total k (c : list (style * nat)) :
  sum_list (map snd (Dict.incr k c)) = S (sum_list (map snd c)).
Proof.
  unfold Dict.incr.
  assert (H : forall v, sum_list (map snd (Dict.set k v c))
                        + default 0%nat (Dict.get k c)
                        = sum_list (map snd c) + v).
  { intros v. induction c as [|[k' n'] c IH]; simpl; [lia |].
    destruct (decide (k = k')) as [-> | Hk]; simpl; lia. }
  specialize (H (S (default 0%nat (Dict.get k c)))). lia.
Qed.

(** X18: the counts of the frequency table add up to the number of counted
    lines. *)
Theorem count_styles_total (doc : document) (start_page : nat) :
  sum_list (map snd (count_styles doc start_page))
  = length (scanned_styles doc start_page).
Proof.
  rewrite count_styles_scanned.
  assert (H : forall l (c : list (style * nat)),
             sum_list (map snd (foldl (fun c k => Dict.incr k c) c l))
             = (sum_list (map snd c) + length l)%nat).
  { induction l as [|k l IH]; intros c; simpl; [lia |].
    rewrite IH, counter_incr_total. lia. }
  rewrite H. reflexivity.
Qed.

End NoTextFacts.

Lemma no_text_document_witness :
  (forall p, p ∈ [Page [Block None] [u "  Scanned page" ++ PyStr.newline :: u "second line"]]
             -> ~ has_run p) /\
  process_document [Page [Block None] [u "  Scanned page" ++ PyStr.newline :: u "second line"]]
  = Result (u "Scanned page") [].
Proof.
  assert (H : forall p,
             p ∈ [Page [Block None] [u "  Scanned page" ++ PyStr.newline :: u "second line"]]
             -> ~ has_run p).
  { intros p Hp. apply list_elem_of_singleton in Hp as ->.
    intros (b & ls & l & Hb & Hls & _). simpl in Hb.
    apply list_elem_of_singleton in Hb as ->. discriminate. }
  split; [exact H |].
  exact (no_text_document _ H).
Defined.

Lemma analyze_first_page_fallback_witness :
  max_font_size_of (Page [Block (Some [Line [Span (u "fine print") (2 # 5) (u "Helvetica")]])]
                         [(u "fine print")]) = 0%Z /\
  analyze_first_page
    [Page [Block (Some [Line [Span (u "fine print") (2 # 5) (u "Helvetica")]])]
          [(u "fine print")]]
  = ((u "fine print"), ∅).
Proof.
  split; [reflexivity |].
  exact (analyze_first_page_fallback
           (Page [Block (Some [Line [Span (u "fine print") (2 # 5) (u "Helvetica")]])]
                 [(u "fine print")]) [] eq_refl).
Defined.
